(** * react-health-checker: the probe / retry / publication engine

    A shallow embedding of [checkHealth] and of the effects that drive it,
    as written in [src/hooks/useHealthCheck.tsx] (the [useHealthCheck] hook)
    and in the [HealthCheck] component, which carries a copy of the same
    [checkHealth] plus one more effect keyed on [url].

    Conventions of the embedding.
    - JS numbers are integers in [Z]: clock readings and durations are
      milliseconds, and [NaN] and the infinities are left out.
    - An object field that is absent or [undefined] is [None].
    - [axios.get] is an oracle: the transport says, per attempt, how long the
      request takes and how its promise settles.
    - [onHealthy] and [onUnhealthy] are observers: an invocation is recorded in
      the trace and returns normally.  A callback is known by an identity
      token, which is all the dependency arrays look at.
    - [performance.now()] and [new Date()] read one clock, which only the
      environment advances: a request takes the latency the transport gives
      it and a timer fires exactly when it is due. *)

From Stdlib Require Import ZArith List String Ascii Bool Lia Arith.
From Stdlib Require Import DecimalString.
From Equations Require Import Equations.
Import ListNotations.
Open Scope Z_scope.
Open Scope string_scope.
Open Scope list_scope.

(** ** JavaScript primitives used by the source *)

(** A template literal [`${n}`] on an integer. *)
Definition numToString (n : Z) : string :=
  NilZero.string_of_int (Z.to_int n).

Definition upperAscii (c : ascii) : ascii :=
  let n := nat_of_ascii c in
  if (andb (Nat.leb 97 n) (Nat.leb n 122)) then ascii_of_nat (n - 32) else c.

(** [String.prototype.toUpperCase], on the ASCII letters. *)
Fixpoint toUpperCase (s : string) : string :=
  match s with
  | EmptyString => EmptyString
  | String c rest => String (upperAscii c) (toUpperCase rest)
  end.

(** [a || d] where [a] is a possibly undefined string: the empty string is
    falsy as well. *)
Definition strOr (a : option string) (d : string) : string :=
  match a with
  | Some s => if String.eqb s "" then d else s
  | None => d
  end.

(** The wait of [setTimeout(resolve, ms)], idealised: a negative delay
    counts as zero and the timer fires when it is due.  The minimum delay
    of the host and the 32-bit range of its timers are left out. *)
Definition timerDelay (ms : Z) : Z := Z.max 0 ms.

(** [hay] has [needle] as a contiguous part. *)
Definition contains (needle hay : string) : Prop :=
  exists pre post, hay = (pre ++ needle ++ post)%string.

(** ** Data model *)

Definition Headers := list (string * string).

(** The part of an axios request config the source reads. *)
Record AxiosRequestConfig := mkConfig {
  cfg_url : option string;
  cfg_method : option string;
  cfg_headers : option Headers
}.

Record AxiosResponse := mkResponse {
  res_status : Z;
  res_statusText : string;
  res_headers : Headers;
  res_data : string;
  res_config : AxiosRequestConfig
}.

(** A value caught by [catch (error)]: an [AxiosError], the [Error] of line
    67, or any other value on which a property can be read (a string, a
    number, a plain object).  [null] and [undefined] are not among them:
    reading [axiosError.config] on those throws. *)
Record Thrown := mkThrown {
  instanceofError : bool;
  err_message : string;
  err_config : option AxiosRequestConfig;
  err_response : option AxiosResponse
}.

(** [new Error(msg)] *)
Definition newError (msg : string) : Thrown :=
  mkThrown true msg None None.

Inductive Status := loading | healthy | unhealthy.

Record RequestInfo := mkRequestInfo {
  rq_url : string;
  rq_method : string;
  rq_headers : option Headers
}.

Record ResponseInfo := mkResponseInfo {
  rs_status : Z;
  rs_statusText : string;
  rs_headers : Headers;
  rs_data : string
}.

Record RequestDetails := mkDetails {
  request : RequestInfo;
  response : option ResponseInfo
}.

(** [IHealthStatus], with the two fields the component adds to it
    ([expanded], [showDevTools]); the hook's state never has them. *)
Record HealthStatus := mkHealth {
  status : Status;
  lastChecked : option Z;
  error : option string;
  rawError : option Thrown;
  responseTime : option Z;
  retryCount : option Z;
  requestDetails : option RequestDetails;
  expanded : option bool;
  showDevTools : option bool
}.

(** Identity of a callback closure. *)
Definition CallbackId := nat.

(** [HealthCheckOptions] after the destructuring defaults. *)
Record HealthCheckOptions := mkOptions {
  url : string;
  interval : Z;
  onHealthy : option CallbackId;
  onUnhealthy : option CallbackId;
  enabled : bool;
  retryAttempts : Z;
  retryDelay : Z;
  responseTimeThreshold : Z
}.

Definition defaultOptions (u : string) : HealthCheckOptions :=
  mkOptions u 30000 None None true 3 5000 1000.

(** [useState] initial values. *)
Definition initialHookHealth : HealthStatus :=
  mkHealth loading None None None None None None None None.

Definition initialComponentHealth : HealthStatus :=
  mkHealth loading None None None None None None (Some false) (Some false).

(** ** The world a cycle runs in *)

(** What a cycle does that an observer can see. *)
Inductive Effect :=
| EGet (u : string)
| ESleep (ms : Z)
| ESetHealth (h : HealthStatus)
| EOnHealthy (cb : CallbackId) (r : AxiosResponse)
| EOnUnhealthy (cb : CallbackId) (e : Thrown).

Record World := mkWorld {
  clock : Z;
  health : HealthStatus;
  trace : list Effect
}.

Definition emit (e : Effect) (w : World) : World :=
  mkWorld (clock w) (health w) (trace w ++ [e]).

Definition advance (ms : Z) (w : World) : World :=
  mkWorld (clock w + ms) (health w) (trace w).

(** [setHealth(updater)]: the updater runs on the latest state. *)
Definition setHealth (f : HealthStatus -> HealthStatus) (w : World) : World :=
  let h := f (health w) in
  mkWorld (clock w) h (trace w ++ [ESetHealth h]).

(** [cb?.(arg)] *)
Definition callOnHealthy (cb : option CallbackId) (r : AxiosResponse) (w : World) : World :=
  match cb with
  | Some c => emit (EOnHealthy c r) w
  | None => w
  end.

Definition callOnUnhealthy (cb : option CallbackId) (e : Thrown) (w : World) : World :=
  match cb with
  | Some c => emit (EOnUnhealthy c e) w
  | None => w
  end.

Inductive Settled :=
| Resolved (r : AxiosResponse)
| Rejected (e : Thrown).

(** The transport: attempt number [k] of a cycle takes [fst] milliseconds and
    settles as [snd]. *)
Definition Transport := nat -> Z * Settled.

(** ** One probe cycle: [checkHealth] *)

(** How the [try] block ends: it runs to its end, or control passes to
    [catch] with the thrown value. *)
Inductive TryResult :=
| Completed (w : World)
| Caught (e : Thrown) (w : World).

(** The updater of lines 35-56 (200 response). *)
Definition successUpdate (st : Status) (now responseTime : Z) (r : AxiosResponse)
    (prev : HealthStatus) : HealthStatus :=
  {| status := st;
     lastChecked := Some now;
     error := None;
     rawError := None;
     responseTime := Some responseTime;
     retryCount := Some 0;
     requestDetails := Some
       {| request :=
            {| rq_url := strOr (cfg_url (res_config r)) "";
               rq_method := strOr (option_map toUpperCase (cfg_method (res_config r))) "";
               rq_headers := cfg_headers (res_config r) |};
          response := Some
            {| rs_status := res_status r;
               rs_statusText := res_statusText r;
               rs_headers := res_headers r;
               rs_data := res_data r |} |};
     expanded := expanded prev;
     showDevTools := showDevTools prev |}.

Definition slowMessage (responseTime threshold : Z) : string :=
  "Response time (" ++ numToString responseTime ++ "ms) exceeded threshold ("
    ++ numToString threshold ++ "ms)".

Definition httpMessage (r : AxiosResponse) : string :=
  "HTTP " ++ numToString (res_status r) ++ ": " ++ res_statusText r.

(** Lines 32-65: the branch of [try] for a 200 response, [responseTime]
    having been read. *)
Definition tryPublish (o : HealthCheckOptions) (rt : Z) (r : AxiosResponse) (w : World)
    : World :=
  let isSlowResponse := (rt >? responseTimeThreshold o)%Z in
  let st := if isSlowResponse then unhealthy else healthy in
  let w1 := setHealth (successUpdate st (clock w) rt r) w in
  if isSlowResponse
  then callOnUnhealthy (onUnhealthy o)
         (newError (slowMessage rt (responseTimeThreshold o))) w1
  else callOnHealthy (onHealthy o) r w1.

(** Lines 27-68, from the point where [axios.get] has settled as [s] and
    the clock reads [clock w]. *)
Definition tryBlock (o : HealthCheckOptions) (startTime : Z) (s : Settled) (w : World)
    : TryResult :=
  match s with
  | Rejected e => Caught e w
  | Resolved r =>
      let responseTime := clock w - startTime in
      if (res_status r =? 200)%Z
      then Completed (tryPublish o responseTime r w)
      else Caught (newError (httpMessage r)) w
  end.

Definition errorMessageOf (e : Thrown) : string :=
  if instanceofError e then err_message e else "Unknown error occurred".

(** The updater of lines 79-101 (retries exhausted). *)
Definition failureUpdate (o : HealthCheckOptions) (now : Z) (e : Thrown) (currentRetry : Z)
    (prev : HealthStatus) : HealthStatus :=
  {| status := unhealthy;
     lastChecked := Some now;
     error := Some (errorMessageOf e);
     rawError := Some e;
     responseTime := responseTime prev;
     retryCount := Some currentRetry;
     requestDetails := Some
       {| request :=
            {| rq_url := strOr (match err_config e with
                                | Some c => cfg_url c
                                | None => None
                                end) (url o);
               rq_method := strOr (match err_config e with
                                   | Some c => option_map toUpperCase (cfg_method c)
                                   | None => None
                                   end) "GET";
               rq_headers := Some (match err_config e with
                                   | Some c => match cfg_headers c with
                                               | Some h => h
                                               | None => []
                                               end
                                   | None => []
                                   end) |};
          response :=
            match err_response e with
            | Some r => Some {| rs_status := res_status r;
                                rs_statusText := res_statusText r;
                                rs_headers := res_headers r;
                                rs_data := res_data r |}
            | None => None
            end |};
     expanded := expanded prev;
     showDevTools := showDevTools prev |}.

(** Lines 79-102: the part of [catch] after the retry test has failed. *)
Definition catchPublish (o : HealthCheckOptions) (e : Thrown) (currentRetry : Z) (w : World)
    : World :=
  let w1 := setHealth (failureUpdate o (clock w) e currentRetry) w in
  callOnUnhealthy (onUnhealthy o)
    (if instanceofError e then e else newError (errorMessageOf e)) w1.

(** [axios.get(url)] for attempt [k], awaited. *)
Definition awaitGet (o : HealthCheckOptions) (tr : Transport) (k : nat) (w : World) : World :=
  advance (fst (tr k)) (emit (EGet (url o)) w).

(** [await new Promise((resolve) => setTimeout(resolve, retryDelay))] *)
Definition awaitDelay (o : HealthCheckOptions) (w : World) : World :=
  advance (timerDelay (retryDelay o)) (emit (ESleep (retryDelay o)) w).

(** A value together with the equation that says what it is, so that the
    branch of a test remembers the test. *)
Definition inspect {A : Type} (a : A) : {b : A | a = b} := exist _ a eq_refl.

(** [attemptHealthCheck] (lines 26-104).  [k] counts the requests the cycle
    has issued so far and picks the transport's answer; the recursion is the
    source's own, and it is bounded because every re-invocation has
    incremented [currentRetry] below [retryAttempts]. *)
Equations? attemptHealthCheck (o : HealthCheckOptions) (startTime : Z) (tr : Transport)
    (currentRetry : Z) (k : nat) (w : World) : World
    by wf (Z.to_nat (retryAttempts o - currentRetry)) lt :=
  attemptHealthCheck o startTime tr currentRetry k w
    with tryBlock o startTime (snd (tr k)) (awaitGet o tr k w) := {
    | Completed w' => w'
    | Caught e w' with inspect (currentRetry <? retryAttempts o)%Z := {
        | exist _ true _ =>
            attemptHealthCheck o startTime tr (currentRetry + 1) (S k) (awaitDelay o w')
        | exist _ false _ => catchPublish o e currentRetry w' } }.
Proof.
  apply Z.ltb_lt in e0. lia.
Qed.

(** [checkHealth] (lines 20-107). *)
Definition checkHealth (o : HealthCheckOptions) (tr : Transport) (w : World) : World :=
  if negb (enabled o) then w
  else attemptHealthCheck o (clock w) tr 0 0 w.

(** ** The mounted monitor: effects, timers and cycles in flight *)

(** The hook and the component share [checkHealth] and the effect on
    [checkHealth, interval, enabled]; the component has one more effect, on
    [url] (its lines 177-186). *)
Inductive Variant := HookVariant | ComponentVariant.

Inductive Phase :=
| AwaitingResponse
| AwaitingTimer (wakeAt : Z).

(** A [checkHealth] call suspended at an [await], with what its closure
    holds. *)
Record Cycle := mkCycle {
  c_options : HealthCheckOptions;
  c_startTime : Z;
  c_currentRetry : Z;
  c_phase : Phase
}.

(** [liveInterval] is [Some] while an effect instance is set up: its
    [isSubscribed] is [true] and its [setInterval] is armed.  The clean-up
    sets the flag to [false] and clears the interval, after which nothing
    calls that instance's [runHealthCheck] again; the flag is read nowhere
    else, and the [AbortController] is given to no request. *)
Record Monitor := mkMonitor {
  variant : Variant;
  props : HealthCheckOptions;
  liveInterval : option Z;
  world : World;
  cycles : list Cycle
}.

(** The updater shared by the [url] effect and the disabled branch. *)
Definition resetUpdate (prev : HealthStatus) : HealthStatus :=
  {| status := loading;
     lastChecked := None;
     error := None;
     rawError := None;
     responseTime := responseTime prev;
     retryCount := retryCount prev;
     requestDetails := None;
     expanded := expanded prev;
     showDevTools := showDevTools prev |}.

Definition withWorld (w : World) (m : Monitor) : Monitor :=
  mkMonitor (variant m) (props m) (liveInterval m) w (cycles m).

(** [runHealthCheck] on a live effect: [checkHealth] runs up to its first
    [await]. *)
Definition runHealthCheck (m : Monitor) : Monitor :=
  let o := props m in
  if negb (enabled o) then m
  else mkMonitor (variant m) o (liveInterval m)
         (emit (EGet (url o)) (world m))
         (cycles m ++ [mkCycle o (clock (world m)) 0 AwaitingResponse]).

(** Body of the effect on [checkHealth, interval, enabled]. *)
Definition mainEffect (m : Monitor) : Monitor :=
  let o := props m in
  if negb (enabled o)
  then mkMonitor (variant m) o None (setHealth resetUpdate (world m)) (cycles m)
  else runHealthCheck
         (mkMonitor (variant m) o (Some (interval o)) (world m) (cycles m)).

(** Its clean-up. *)
Definition mainCleanup (m : Monitor) : Monitor :=
  mkMonitor (variant m) (props m) None (world m) (cycles m).

(** Body of the component's effect on [url]. *)
Definition urlEffect (m : Monitor) : Monitor :=
  match variant m with
  | ComponentVariant => withWorld (setHealth resetUpdate (world m)) m
  | HookVariant => m
  end.

Definition optCallbackEqb (a b : option CallbackId) : bool :=
  match a, b with
  | Some x, Some y => Nat.eqb x y
  | None, None => true
  | _, _ => false
  end.

(** [checkHealth] keeps its identity across a render ([useCallback]). *)
Definition sameCheckHealth (p q : HealthCheckOptions) : bool :=
  String.eqb (url p) (url q)
  && optCallbackEqb (onHealthy p) (onHealthy q)
  && optCallbackEqb (onUnhealthy p) (onUnhealthy q)
  && Bool.eqb (enabled p) (enabled q)
  && Z.eqb (retryAttempts p) (retryAttempts q)
  && Z.eqb (retryDelay p) (retryDelay q)
  && Z.eqb (responseTimeThreshold p) (responseTimeThreshold q).

Definition sameMainDeps (p q : HealthCheckOptions) : bool :=
  sameCheckHealth p q && Z.eqb (interval p) (interval q)
  && Bool.eqb (enabled p) (enabled q).

(** First render and commit: every effect runs, in source order. *)
Definition mount (v : Variant) (o : HealthCheckOptions) (now : Z) : Monitor :=
  let h := match v with
           | HookVariant => initialHookHealth
           | ComponentVariant => initialComponentHealth
           end in
  mainEffect (urlEffect (mkMonitor v o None (mkWorld now h []) [])).

(** A later render with props [q]: clean-ups of the effects whose
    dependencies changed, then their bodies in source order. *)
Definition render (q : HealthCheckOptions) (m : Monitor) : Monitor :=
  let p := props m in
  let m1 := if sameMainDeps p q then m else mainCleanup m in
  let m2 := mkMonitor (variant m1) q (liveInterval m1) (world m1) (cycles m1) in
  let m3 := if String.eqb (url p) (url q) then m2 else urlEffect m2 in
  if sameMainDeps p q then m3 else mainEffect m3.

Fixpoint removeNth {A : Type} (i : nat) (l : list A) : list A :=
  match i, l with
  | _, [] => []
  | O, _ :: rest => rest
  | S j, x :: rest => x :: removeNth j rest
  end.

Fixpoint replaceNth {A : Type} (i : nat) (y : A) (l : list A) : list A :=
  match i, l with
  | _, [] => []
  | O, _ :: rest => y :: rest
  | S j, x :: rest => x :: replaceNth j y rest
  end.

(** The pending request of cycle [i] settles: [attemptHealthCheck] resumes
    after [await axios.get(url)] and runs to its next [await] or to its
    end. *)
Definition settle (i : nat) (s : Settled) (m : Monitor) : Monitor :=
  match nth_error (cycles m) i with
  | Some (mkCycle o startTime currentRetry AwaitingResponse) =>
      match tryBlock o startTime s (world m) with
      | Completed w' => mkMonitor (variant m) (props m) (liveInterval m) w'
                          (removeNth i (cycles m))
      | Caught e w' =>
          if (currentRetry <? retryAttempts o)%Z
          then mkMonitor (variant m) (props m) (liveInterval m)
                 (emit (ESleep (retryDelay o)) w')
                 (replaceNth i
                    (mkCycle o startTime (currentRetry + 1)
                       (AwaitingTimer (clock w' + timerDelay (retryDelay o))))
                    (cycles m))
          else mkMonitor (variant m) (props m) (liveInterval m)
                 (catchPublish o e currentRetry w')
                 (removeNth i (cycles m))
      end
  | _ => m
  end.

(** The retry timer of cycle [i] fires: [attemptHealthCheck] is re-invoked
    and suspends at [await axios.get(url)]. *)
Definition wake (i : nat) (m : Monitor) : Monitor :=
  match nth_error (cycles m) i with
  | Some (mkCycle o startTime currentRetry (AwaitingTimer t)) =>
      if (t <=? clock (world m))%Z
      then mkMonitor (variant m) (props m) (liveInterval m)
             (emit (EGet (url o)) (world m))
             (replaceNth i (mkCycle o startTime currentRetry AwaitingResponse) (cycles m))
      else m
  | _ => m
  end.

(** What can happen to a mounted monitor. *)
Inductive Event :=
| Render (q : HealthCheckOptions)
| Tick
| Elapse (ms : Z)
| Settle (i : nat) (s : Settled)
| Wake (i : nat).

Definition step (m : Monitor) (ev : Event) : Monitor :=
  match ev with
  | Render q => render q m
  | Tick => match liveInterval m with
            | Some _ => runHealthCheck m
            | None => m
            end
  | Elapse ms => withWorld (advance ms (world m)) m
  | Settle i s => settle i s m
  | Wake i => wake i m
  end.

Definition run (m : Monitor) (evs : list Event) : Monitor :=
  fold_left step evs m.

(** ** Vocabulary of the statements *)

Definition isGet (e : Effect) : bool :=
  match e with EGet _ => true | _ => false end.

Definition isSleep (e : Effect) : bool :=
  match e with ESleep _ => true | _ => false end.

Definition isSetHealth (e : Effect) : bool :=
  match e with ESetHealth _ => true | _ => false end.

Definition isOnHealthy (e : Effect) : bool :=
  match e with EOnHealthy _ _ => true | _ => false end.

Definition isOnUnhealthy (e : Effect) : bool :=
  match e with EOnUnhealthy _ _ => true | _ => false end.

Definition count (p : Effect -> bool) (t : list Effect) : nat :=
  List.length (filter p t).

(** The effects performed on the way from [w] to [w']. *)
Definition since (w w' : World) : list Effect :=
  skipn (List.length (trace w)) (trace w').

(** An attempt that ends in [catch]: the promise rejected, or it resolved
    with a status other than 200. *)
Definition fails (s : Settled) : bool :=
  match s with
  | Rejected _ => true
  | Resolved r => negb (res_status r =? 200)%Z
  end.

(** The value [catch] binds for such an attempt. *)
Definition caughtValue (s : Settled) : Thrown :=
  match s with
  | Rejected e => e
  | Resolved r => newError (httpMessage r)
  end.

(** The world after [n] attempts, numbered from [k], that each failed and
    were each followed by the retry delay. *)
Fixpoint failedRounds (o : HealthCheckOptions) (tr : Transport) (k n : nat) (w : World)
    : World :=
  match n with
  | O => w
  | S n' => failedRounds o tr (S k) n' (awaitDelay o (awaitGet o tr k w))
  end.

(** Time taken by those [n] rounds. *)
Fixpoint roundsTime (o : HealthCheckOptions) (tr : Transport) (k n : nat) : Z :=
  match n with
  | O => 0
  | S n' => fst (tr k) + timerDelay (retryDelay o) + roundsTime o tr (S k) n'
  end.

(** Their effects. *)
Fixpoint roundsTrace (o : HealthCheckOptions) (n : nat) : list Effect :=
  match n with
  | O => []
  | S n' => EGet (url o) :: ESleep (retryDelay o) :: roundsTrace o n'
  end.

(** Time from the start of the cycle to the moment attempt [n] settles,
    when the [n] attempts before it failed. *)
Definition elapsedAt (o : HealthCheckOptions) (tr : Transport) (n : nat) : Z :=
  roundsTime o tr 0 n + fst (tr n).

(** The world at the moment attempt [n] settles, the [n] attempts before it
    having failed. *)
Definition beforeSettle (o : HealthCheckOptions) (tr : Transport) (n : nat) (w : World)
    : World :=
  awaitGet o tr n (failedRounds o tr 0 n w).

(** Sum of the latencies of attempts [k], ..., [k + n - 1]. *)
Fixpoint sumLatency (tr : Transport) (k n : nat) : Z :=
  match n with
  | O => 0
  | S n' => fst (tr k) + sumLatency tr (S k) n'
  end.

(** An attempt with its non-200 response replaced by the rejection that
    line 67 throws for it. *)
Definition asRejection (s : Settled) : Settled :=
  match s with
  | Resolved r => if (res_status r =? 200)%Z then s else Rejected (newError (httpMessage r))
  | Rejected _ => s
  end.

Definition rejecting (tr : Transport) : Transport :=
  fun k => (fst (tr k), asRejection (snd (tr k))).

(** The invariant of a published status, against the threshold of the cycle
    that published it. *)
Definition invariant (threshold : Z) (h : HealthStatus) : Prop :=
  (status h = healthy ->
     error h = None /\ exists rt, responseTime h = Some rt /\ rt <= threshold) /\
  (status h = unhealthy ->
     error h <> None \/ exists rt, responseTime h = Some rt /\ rt > threshold).

(** From [w] to [w'] exactly one publication happened, of [h], which is the
    state [w'] holds. *)
Definition publishedOnce (w w' : World) (h : HealthStatus) : Prop :=
  exists pre post,
    trace w' = trace w ++ pre ++ ESetHealth h :: post /\
    count isSetHealth pre = O /\ count isSetHealth post = O /\
    health w' = h.

(** Every status the world has seen published, and the one it holds, meet
    the invariant for [threshold]. *)
Definition worldOk (threshold : Z) (w : World) : Prop :=
  (forall h, In (ESetHealth h) (trace w) -> invariant threshold h) /\
  invariant threshold (health w).

(** A monitor all of whose closures hold the same [threshold], in such a
    world. *)
Definition monitorOk (threshold : Z) (m : Monitor) : Prop :=
  responseTimeThreshold (props m) = threshold /\
  Forall (fun c => responseTimeThreshold (c_options c) = threshold) (cycles m) /\
  worldOk threshold (world m).

(** The renders among [evs] keep the threshold at [threshold]. *)
Definition keepsThreshold (threshold : Z) (evs : list Event) : Prop :=
  forall q, In (Render q) evs -> responseTimeThreshold q = threshold.

(** ** Concrete inputs *)

Definition healthUrl : string := "https://x/health".

Definition getConfig : AxiosRequestConfig :=
  mkConfig (Some healthUrl) (Some "get") None.

Definition ok200 : AxiosResponse := mkResponse 200 "OK" [] "up" getConfig.

Definition noContent204 : AxiosResponse := mkResponse 204 "No Content" [] "" getConfig.

Definition networkError : Thrown := mkThrown true "Network Error" (Some getConfig) None.

(** The configuration of the spec's worked example, with both callbacks
    supplied. *)
Definition exampleOptions : HealthCheckOptions :=
  mkOptions healthUrl 10000 (Some 1%nat) (Some 2%nat) true 2 100 500.

Definition alwaysFails : Transport := fun _ => (10, Rejected networkError).

(** Fails twice, then answers 200 after 50 ms. *)
Definition failsTwice : Transport :=
  fun k => if Nat.ltb k 2 then (10, Rejected networkError) else (50, Resolved ok200).

(** Answers 200 at once, but only after 1200 ms. *)
Definition slowOk : Transport := fun _ => (1200, Resolved ok200).

Definition always204 : Transport := fun _ => (10, Resolved noContent204).

(** Answers 200 after 50 ms. *)
Definition quickOk : Transport := fun _ => (50, Resolved ok200).

Definition freshWorld : World := mkWorld 0 initialHookHealth [].

(** [exampleOptions] with [enabled = false]. *)
Definition disabledOptions : HealthCheckOptions :=
  mkOptions healthUrl 10000 (Some 1%nat) (Some 2%nat) false 2 100 500.

(** [exampleOptions] with another target. *)
Definition movedOptions : HealthCheckOptions :=
  mkOptions "https://y/health" 10000 (Some 1%nat) (Some 2%nat) true 2 100 500.

(** Empty URL, zero interval, negative retry count, zero threshold. *)
Definition badOptions : HealthCheckOptions :=
  mkOptions "" 0 None None true (-1) 5000 0.

(** The hook is mounted enabled, and 20 ms later, its first request still
    pending, it is rendered with [enabled = false]. *)
Definition disabledMidCycle : Monitor :=
  run (mount HookVariant exampleOptions 0) [Elapse 20; Render disabledOptions].

(** The component after a first cycle that found the target healthy in
    50 ms. *)
Definition settledComponent : Monitor :=
  run (mount ComponentVariant exampleOptions 0) [Elapse 50; Settle 0 (Resolved ok200)].

(** ** Statements of the specification that the code does not meet *)

(** Recovery after [retryAttempts] failures, as the specification words it:
    the published [retryCount] is the number of retries consumed. *)
Definition recovery_records_retries (o : HealthCheckOptions) (tr : Transport) (w : World)
    : Prop :=
  forall r,
    enabled o = true ->
    0 < retryAttempts o ->
    (forall j, (j < Z.to_nat (retryAttempts o))%nat -> fails (snd (tr j)) = true) ->
    snd (tr (Z.to_nat (retryAttempts o))) = Resolved r ->
    res_status r = 200 ->
    elapsedAt o tr (Z.to_nat (retryAttempts o)) <= responseTimeThreshold o ->
    status (health (checkHealth o tr w)) = healthy /\
    retryCount (health (checkHealth o tr w)) = Some (retryAttempts o) /\
    count isOnHealthy (since w (checkHealth o tr w)) = 1%nat /\
    count isOnUnhealthy (since w (checkHealth o tr w)) = 0%nat.

(** The reset on a change of [url], as the specification words it. *)
Definition url_change_clears (m : Monitor) (q : HealthCheckOptions) : Prop :=
  url q <> url (props m) ->
  status (health (world (render q m))) = loading /\
  error (health (world (render q m))) = None /\
  responseTime (health (world (render q m))) = None /\
  requestDetails (health (world (render q m))) = None /\
  retryCount (health (world (render q m))) = None.

(** The configurations the specification calls invalid. *)
Definition invalidOptions (o : HealthCheckOptions) : Prop :=
  url o = "" \/ retryAttempts o < 0 \/ interval o <= 0 \/ responseTimeThreshold o <= 0.

(** Validation at construction, as the specification words it: an invalid
    configuration leaves the monitor disabled, with no timer and no probe. *)
Definition invalid_config_stays_disabled (v : Variant) (o : HealthCheckOptions) (now : Z)
    : Prop :=
  invalidOptions o ->
  liveInterval (mount v o now) = None /\
  cycles (mount v o now) = [] /\
  count isGet (trace (world (mount v o now))) = O.

(** ** The component's own code *)

(** [!x] on a possibly undefined boolean. *)
Definition notJs (x : option bool) : bool :=
  match x with
  | Some b => negb b
  | None => true
  end.

(** The updater of [toggleExpanded] (component lines 220-225). *)
Definition toggleExpandedUpdate (prev : HealthStatus) : HealthStatus :=
  {| status := status prev;
     lastChecked := lastChecked prev;
     error := error prev;
     rawError := rawError prev;
     responseTime := responseTime prev;
     retryCount := retryCount prev;
     requestDetails := requestDetails prev;
     expanded := Some (notJs (expanded prev));
     showDevTools := showDevTools prev |}.

(** The updater of [toggleDevTools] (component lines 227-232). *)
Definition toggleDevToolsUpdate (prev : HealthStatus) : HealthStatus :=
  {| status := status prev;
     lastChecked := lastChecked prev;
     error := error prev;
     rawError := rawError prev;
     responseTime := responseTime prev;
     retryCount := retryCount prev;
     requestDetails := requestDetails prev;
     expanded := expanded prev;
     showDevTools := Some (notJs (showDevTools prev)) |}.

(** What can happen to the mounted component: an event of the engine, or a
    call of one of its two click handlers. *)
Inductive UiEvent :=
| Engine (ev : Event)
| ToggleExpanded
| ToggleDevTools.

Definition uiStep (m : Monitor) (ev : UiEvent) : Monitor :=
  match ev with
  | Engine e => step m e
  | ToggleExpanded => withWorld (setHealth toggleExpandedUpdate (world m)) m
  | ToggleDevTools => withWorld (setHealth toggleDevToolsUpdate (world m)) m
  end.

Definition uiRun (m : Monitor) (evs : list UiEvent) : Monitor :=
  fold_left uiStep evs m.

Definition isToggleExpanded (ev : UiEvent) : bool :=
  match ev with ToggleExpanded => true | _ => false end.

Definition isToggleDevTools (ev : UiEvent) : bool :=
  match ev with ToggleDevTools => true | _ => false end.

(** A CSS object with the four offsets the source sets. *)
Record Offsets := mkOffsets {
  top : option string;
  bottom : option string;
  left : option string;
  right : option string
}.

Definition noOffsets : Offsets := mkOffsets None None None None.

(** [['top-right', 'top-left', 'bottom-right', 'bottom-left'].includes(position)] *)
Definition isCorner (position : string) : bool :=
  existsb (String.eqb position) ["top-right"; "top-left"; "bottom-right"; "bottom-left"].

(** [String.prototype.includes] *)
Fixpoint includes (needle hay : string) : bool :=
  String.prefix needle hay
  || match hay with
     | EmptyString => false
     | String _ rest => includes needle rest
     end.

(** [getPositionStyles] (component lines 30-47). *)
Definition getPositionStyles (position : string) : Offsets :=
  if isCorner position then
    if String.eqb position "top-right" then mkOffsets (Some "20px") None None (Some "20px")
    else if String.eqb position "top-left" then mkOffsets (Some "20px") None (Some "20px") None
    else if String.eqb position "bottom-left" then mkOffsets None (Some "20px") (Some "20px") None
    else if String.eqb position "bottom-right" then mkOffsets None (Some "20px") None (Some "20px")
    else noOffsets
  else noOffsets.

(** [getExpandedPosition] (component lines 49-61). *)
Definition getExpandedPosition (position : string) : Offsets :=
  let isTop := includes "top" position in
  let isLeft := includes "left" position in
  {| top := if isTop then Some "40px" else None;
     bottom := if isTop then None else Some "40px";
     left := if isLeft then Some "0" else None;
     right := if isLeft then None else Some "0" |}.

(** The [position] entry of [containerStyles] (component lines 238-242). *)
Definition containerPosition (position : string) : string :=
  if isCorner position then "fixed" else "relative".

(** [health.retryCount !== undefined && health.retryCount > 0]: whether the
    panel has its "Retry attempts" line (component line 319). *)
Definition showsRetryLine (h : HealthStatus) : bool :=
  match retryCount h with
  | Some n => (n >? 0)%Z
  | None => false
  end.

(** ** More vocabulary *)

(** The interval timer is armed exactly when the props say [enabled], with
    the period the props give. *)
Definition timerFollowsProps (m : Monitor) : Prop :=
  liveInterval m = if enabled (props m) then Some (interval (props m)) else None.

(** A rejection with a value that is not an [Error]. *)
Definition thrownString : Thrown := mkThrown false "" None None.

Definition throwsString : Transport := fun _ => (10, Rejected thrownString).

(** [exampleOptions] with a new closure for [onHealthy]. *)
Definition recreatedCallbackOptions : HealthCheckOptions :=
  mkOptions healthUrl 10000 (Some 7%nat) (Some 2%nat) true 2 100 500.

(** Which of the four offsets an object sets: top, bottom, left, right. *)
Definition sides (o : Offsets) : bool * bool * bool * bool :=
  (match top o with Some _ => true | None => false end,
   match bottom o with Some _ => true | None => false end,
   match left o with Some _ => true | None => false end,
   match right o with Some _ => true | None => false end).

(** Number of calls of [toggleExpanded], of [toggleDevTools], among
    [evs]. *)
Definition expandedToggles (evs : list UiEvent) : nat :=
  List.length (filter isToggleExpanded evs).

Definition devToolsToggles (evs : list UiEvent) : nat :=
  List.length (filter isToggleDevTools evs).

(** None of [evs] is a render. *)
Definition noRender (evs : list Event) : Prop :=
  forall q, ~ In (Render q) evs.

(** A disabled monitor at rest: no timer, nothing in flight, no request
    issued so far. *)
Definition atRest (m : Monitor) : Prop :=
  liveInterval m = None /\ cycles m = [] /\ count isGet (trace (world m)) = O.

(** [exampleOptions] with no callback. *)
Definition quietOptions : HealthCheckOptions :=
  mkOptions healthUrl 10000 None None true 2 100 500.

(** An error message that an observer of the cycle from [w] to [w'] can
    see: the published [error], or the message of what a callback
    received. *)
Definition reportsMessage (w w' : World) (msg : string) : Prop :=
  error (health w') = Some msg \/
  exists cb e, In (EOnUnhealthy cb e) (since w w') /\ err_message e = msg.

(** The slow 200 response, as the specification words it: the cycle
    classifies [unhealthy] with an error message that contains both the
    elapsed time and the threshold. *)
Definition slow_response_reports_message (o : HealthCheckOptions) (tr : Transport)
    (w : World) : Prop :=
  forall r,
    enabled o = true ->
    snd (tr O) = Resolved r ->
    res_status r = 200 ->
    elapsedAt o tr 0 > responseTimeThreshold o ->
    status (health (checkHealth o tr w)) = unhealthy /\
    exists msg,
      reportsMessage w (checkHealth o tr w) msg /\
      contains (numToString (elapsedAt o tr 0)) msg /\
      contains (numToString (responseTimeThreshold o)) msg.

(** ** Comparisons *)

Lemma gtb_false a b : a <= b -> (a >? b)%Z = false.
Proof. intros H. rewrite Z.gtb_ltb. apply Z.ltb_ge. exact H. Qed.

Lemma gtb_true a b : b < a -> (a >? b)%Z = true.
Proof. intros H. rewrite Z.gtb_ltb. apply Z.ltb_lt. exact H. Qed.

(** ** The cycle, unfolded *)

Lemma attemptHealthCheck_body o startTime tr currentRetry k w :
  attemptHealthCheck o startTime tr currentRetry k w =
  match tryBlock o startTime (snd (tr k)) (awaitGet o tr k w) with
  | Completed w' => w'
  | Caught e w' =>
      if (currentRetry <? retryAttempts o)%Z
      then attemptHealthCheck o startTime tr (currentRetry + 1) (S k) (awaitDelay o w')
      else catchPublish o e currentRetry w'
  end.
Proof.
  rewrite attemptHealthCheck_equation_1.
  destruct (tryBlock o startTime (snd (tr k)) (awaitGet o tr k w)); simpl.
  - reflexivity.
  - destruct (currentRetry <? retryAttempts o)%Z; reflexivity.
Qed.

Lemma tryBlock_fails o startTime s w :
  fails s = true -> tryBlock o startTime s w = Caught (caughtValue s) w.
Proof.
  destruct s as [r | e]; simpl; intros H.
  - apply negb_true_iff in H. rewrite H. reflexivity.
  - reflexivity.
Qed.

Lemma tryBlock_200 o startTime r w :
  res_status r = 200 ->
  tryBlock o startTime (Resolved r) w = Completed (tryPublish o (clock w - startTime) r w).
Proof.
  intros H. unfold tryBlock. rewrite H. reflexivity.
Qed.

(** *** Rounds that fail *)

Section FailedRounds.

Variables (o : HealthCheckOptions) (startTime : Z) (tr : Transport).

Lemma failedRounds_clock n : forall k w,
  clock (failedRounds o tr k n w) = clock w + roundsTime o tr k n.
Proof.
  induction n as [| n IH]; intros k w; simpl.
  - lia.
  - rewrite IH. simpl. lia.
Qed.

Lemma failedRounds_health n : forall k w,
  health (failedRounds o tr k n w) = health w.
Proof.
  induction n as [| n IH]; intros k w; simpl; [reflexivity |].
  rewrite IH. reflexivity.
Qed.

Lemma failedRounds_trace n : forall k w,
  trace (failedRounds o tr k n w) = trace w ++ roundsTrace o n.
Proof.
  induction n as [| n IH]; intros k w; simpl.
  - now rewrite app_nil_r.
  - rewrite IH. simpl. rewrite <- !app_assoc. reflexivity.
Qed.

(** [n] failing attempts within the retry budget bring
    [attemptHealthCheck] to its invocation number [n]. *)
Lemma attempt_after_failures n : forall currentRetry k w,
  (forall j, (j < n)%nat -> fails (snd (tr (k + j)%nat)) = true) ->
  currentRetry + Z.of_nat n <= retryAttempts o ->
  attemptHealthCheck o startTime tr currentRetry k w =
  attemptHealthCheck o startTime tr (currentRetry + Z.of_nat n) (k + n)
    (failedRounds o tr k n w).
Proof.
  induction n as [| n IH]; intros currentRetry k w Hfail Hle.
  - simpl. rewrite Z.add_0_r, Nat.add_0_r. reflexivity.
  - rewrite attemptHealthCheck_body.
    rewrite tryBlock_fails
      by (specialize (Hfail O); rewrite Nat.add_0_r in Hfail; apply Hfail; lia).
    replace (currentRetry <? retryAttempts o)%Z with true
      by (symmetry; apply Z.ltb_lt; lia).
    rewrite IH.
    + simpl failedRounds.
      replace (currentRetry + 1 + Z.of_nat n) with (currentRetry + Z.of_nat (S n)) by lia.
      replace (S k + n)%nat with (k + S n)%nat by lia. reflexivity.
    + intros j Hj. replace (S k + j)%nat with (k + S j)%nat by lia.
      apply Hfail. lia.
    + lia.
Qed.

Lemma beforeSettle_clock n w :
  clock (beforeSettle o tr n w) = clock w + elapsedAt o tr n.
Proof.
  unfold beforeSettle, elapsedAt, awaitGet. simpl.
  rewrite failedRounds_clock. lia.
Qed.

Lemma beforeSettle_health n w :
  health (beforeSettle o tr n w) = health w.
Proof.
  unfold beforeSettle, awaitGet. simpl. apply failedRounds_health.
Qed.

Lemma beforeSettle_trace n w :
  trace (beforeSettle o tr n w) = trace w ++ roundsTrace o n ++ [EGet (url o)].
Proof.
  unfold beforeSettle, awaitGet. simpl.
  rewrite failedRounds_trace, <- app_assoc. reflexivity.
Qed.

End FailedRounds.

(** *** Counting effects *)

Lemma since_app w w' t : trace w' = trace w ++ t -> since w w' = t.
Proof.
  intros H. unfold since. rewrite H.
  rewrite skipn_app, skipn_all, Nat.sub_diag. reflexivity.
Qed.

Lemma count_app p t u : count p (t ++ u) = (count p t + count p u)%nat.
Proof. unfold count. rewrite filter_app, length_app. reflexivity. Qed.

Lemma count_rounds_get o n : count isGet (roundsTrace o n) = n.
Proof. induction n as [| n IH]; [reflexivity |]. unfold count in *. simpl. now rewrite IH. Qed.

Lemma count_rounds_sleep o n : count isSleep (roundsTrace o n) = n.
Proof. induction n as [| n IH]; [reflexivity |]. unfold count in *. simpl. now rewrite IH. Qed.

Lemma count_rounds_other p o n :
  (forall u, p (EGet u) = false) -> (forall ms, p (ESleep ms) = false) ->
  count p (roundsTrace o n) = O.
Proof.
  intros Hg Hs. induction n as [| n IH]; [reflexivity |].
  unfold count in *. simpl. now rewrite Hg, Hs.
Qed.

Ltac count_effects :=
  repeat rewrite count_app;
  repeat first [ rewrite count_rounds_get
               | rewrite count_rounds_sleep
               | rewrite count_rounds_other by reflexivity ];
  cbn [count filter List.length isGet isSleep isSetHealth isOnHealthy isOnUnhealthy];
  try lia.

Lemma last_two {A : Type} (l : list A) (a b d : A) : last (l ++ [a; b]) d = b.
Proof.
  replace (l ++ [a; b]) with ((l ++ [a]) ++ [b])
    by (rewrite <- app_assoc; reflexivity).
  apply last_last.
Qed.

(** *** How a cycle ends *)

(** Every attempt up to the last permitted one fails: the cycle ends in the
    [catch] publication, reached with [currentRetry = retryAttempts]. *)
Lemma cycle_exhausted o tr w :
  enabled o = true ->
  0 <= retryAttempts o ->
  (forall j, (j <= Z.to_nat (retryAttempts o))%nat -> fails (snd (tr j)) = true) ->
  checkHealth o tr w =
  catchPublish o (caughtValue (snd (tr (Z.to_nat (retryAttempts o))))) (retryAttempts o)
    (beforeSettle o tr (Z.to_nat (retryAttempts o)) w).
Proof.
  intros Hen Hpos Hfail. unfold checkHealth. rewrite Hen. simpl.
  rewrite (attempt_after_failures o (clock w) tr (Z.to_nat (retryAttempts o)) 0 O w).
  - rewrite attemptHealthCheck_body.
    rewrite tryBlock_fails by (apply Hfail; simpl; lia).
    replace (0 + Z.of_nat (Z.to_nat (retryAttempts o))) with (retryAttempts o) by lia.
    rewrite Z.ltb_irrefl. reflexivity.
  - intros j Hj. apply Hfail. simpl. lia.
  - lia.
Qed.

(** [n] attempts fail and the next one resolves with 200: the cycle ends in
    the [try] block. *)
Lemma cycle_succeeds_at o tr w n r :
  enabled o = true ->
  (forall j, (j < n)%nat -> fails (snd (tr j)) = true) ->
  Z.of_nat n <= retryAttempts o ->
  snd (tr n) = Resolved r ->
  res_status r = 200 ->
  checkHealth o tr w = tryPublish o (elapsedAt o tr n) r (beforeSettle o tr n w).
Proof.
  intros Hen Hfail Hle Hres H200. unfold checkHealth. rewrite Hen. simpl.
  rewrite (attempt_after_failures o (clock w) tr n 0 O w) by (simpl; auto).
  rewrite attemptHealthCheck_body. simpl. rewrite Hres.
  fold (beforeSettle o tr n w).
  rewrite tryBlock_200 by assumption.
  rewrite beforeSettle_clock. f_equal. lia.
Qed.

(** *** The two publications *)

Lemma catchPublish_health o e currentRetry w :
  health (catchPublish o e currentRetry w) =
  failureUpdate o (clock w) e currentRetry (health w).
Proof. unfold catchPublish. destruct (onUnhealthy o); reflexivity. Qed.

Lemma catchPublish_trace o e currentRetry w :
  trace (catchPublish o e currentRetry w) =
  trace w ++ ESetHealth (failureUpdate o (clock w) e currentRetry (health w))
          :: match onUnhealthy o with
             | Some cb => [EOnUnhealthy cb
                             (if instanceofError e then e else newError (errorMessageOf e))]
             | None => []
             end.
Proof.
  unfold catchPublish. destruct (onUnhealthy o); simpl.
  - rewrite <- app_assoc. reflexivity.
  - reflexivity.
Qed.

Lemma tryPublish_health o rt r w :
  health (tryPublish o rt r w) =
  successUpdate (if (rt >? responseTimeThreshold o)%Z then unhealthy else healthy)
    (clock w) rt r (health w).
Proof.
  unfold tryPublish.
  destruct (rt >? responseTimeThreshold o)%Z;
    [destruct (onUnhealthy o) | destruct (onHealthy o)]; reflexivity.
Qed.

Lemma tryPublish_trace o rt r w :
  trace (tryPublish o rt r w) =
  trace w ++ ESetHealth (health (tryPublish o rt r w))
          :: (if (rt >? responseTimeThreshold o)%Z
              then match onUnhealthy o with
                   | Some cb => [EOnUnhealthy cb
                                   (newError (slowMessage rt (responseTimeThreshold o)))]
                   | None => []
                   end
              else match onHealthy o with
                   | Some cb => [EOnHealthy cb r]
                   | None => []
                   end).
Proof.
  rewrite tryPublish_health. unfold tryPublish.
  destruct (rt >? responseTimeThreshold o)%Z;
    [destruct (onUnhealthy o) | destruct (onHealthy o)]; simpl;
    rewrite <- ?app_assoc; reflexivity.
Qed.

(** ** Retries and the terminal publication *)

(** C1. With [retryAttempts = N >= 0] and a transport whose every attempt
    fails, one cycle issues exactly [N + 1] requests, waits [N] times,
    publishes once, leaves the status [unhealthy] with [retryCount = N], and
    calls [onUnhealthy] exactly once (and [onHealthy] never). *)
Theorem always_failing_cycle (o : HealthCheckOptions) (tr : Transport) (w : World)
    (cb : CallbackId) :
  enabled o = true ->
  0 <= retryAttempts o ->
  (forall k, fails (snd (tr k)) = true) ->
  onUnhealthy o = Some cb ->
  count isGet (since w (checkHealth o tr w)) = (Z.to_nat (retryAttempts o) + 1)%nat /\
  count isSleep (since w (checkHealth o tr w)) = Z.to_nat (retryAttempts o) /\
  count isSetHealth (since w (checkHealth o tr w)) = 1%nat /\
  status (health (checkHealth o tr w)) = unhealthy /\
  retryCount (health (checkHealth o tr w)) = Some (retryAttempts o) /\
  count isOnUnhealthy (since w (checkHealth o tr w)) = 1%nat /\
  count isOnHealthy (since w (checkHealth o tr w)) = 0%nat.
Proof.
  intros Hen Hpos Hfail Hcb.
  rewrite (cycle_exhausted o tr w Hen Hpos) by (intros; apply Hfail).
  set (N := Z.to_nat (retryAttempts o)).
  set (e := caughtValue (snd (tr N))).
  rewrite catchPublish_health.
  erewrite since_app
    by (rewrite catchPublish_trace, beforeSettle_trace, Hcb, <- !app_assoc; reflexivity).
  repeat split; try reflexivity; count_effects.
Qed.

Lemma always_failing_cycle_witness :
  enabled exampleOptions = true /\
  0 <= retryAttempts exampleOptions /\
  (forall k, fails (snd (alwaysFails k)) = true) /\
  onUnhealthy exampleOptions = Some 2%nat /\
  count isGet (since freshWorld (checkHealth exampleOptions alwaysFails freshWorld)) = 3%nat /\
  retryCount (health (checkHealth exampleOptions alwaysFails freshWorld)) = Some 2.
Proof.
  split; [reflexivity |]. split; [simpl; lia |].
  split; [intros k; reflexivity |]. split; [reflexivity |].
  destruct (always_failing_cycle exampleOptions alwaysFails freshWorld 2%nat
              eq_refl ltac:(simpl; lia) (fun _ => eq_refl) eq_refl)
    as (Hgets & _ & _ & _ & Hretry & _).
  split; [exact Hgets | exact Hretry].
Defined.

(** With [retryAttempts = 2], two failures and then a 200 within the
    threshold, the published [retryCount] is 0 and not 2. *)
Lemma recovery_records_retries_fails :
  ~ recovery_records_retries exampleOptions failsTwice freshWorld.
Proof.
  intros H.
  destruct (H ok200 eq_refl) as (_ & Hretry & _).
  - reflexivity.
  - intros j Hj. change (Z.to_nat (retryAttempts exampleOptions)) with 2%nat in Hj.
    destruct j as [| [| j]]; [reflexivity | reflexivity | lia].
  - reflexivity.
  - reflexivity.
  - vm_compute. discriminate.
  - vm_compute in Hretry. discriminate.
Qed.

(** C2, amended.  With [retryAttempts = N > 0], a transport that fails [N]
    times and then answers 200 within the threshold makes the cycle issue
    [N + 1] requests, publish once with status [healthy], and call
    [onHealthy] once and [onUnhealthy] never; the published [retryCount] is
    0, the constant the 200 branch writes. *)
Theorem recovery_after_retries (o : HealthCheckOptions) (tr : Transport) (w : World)
    (r : AxiosResponse) (cb : CallbackId) :
  enabled o = true ->
  0 < retryAttempts o ->
  (forall j, (j < Z.to_nat (retryAttempts o))%nat -> fails (snd (tr j)) = true) ->
  snd (tr (Z.to_nat (retryAttempts o))) = Resolved r ->
  res_status r = 200 ->
  elapsedAt o tr (Z.to_nat (retryAttempts o)) <= responseTimeThreshold o ->
  onHealthy o = Some cb ->
  status (health (checkHealth o tr w)) = healthy /\
  retryCount (health (checkHealth o tr w)) = Some 0 /\
  count isGet (since w (checkHealth o tr w)) = (Z.to_nat (retryAttempts o) + 1)%nat /\
  count isSetHealth (since w (checkHealth o tr w)) = 1%nat /\
  count isOnHealthy (since w (checkHealth o tr w)) = 1%nat /\
  count isOnUnhealthy (since w (checkHealth o tr w)) = 0%nat.
Proof.
  intros Hen Hpos Hfail Hres H200 Hfast Hcb.
  rewrite (cycle_succeeds_at o tr w (Z.to_nat (retryAttempts o)) r) by (auto; lia).
  set (N := Z.to_nat (retryAttempts o)) in *.
  assert (Hslow : (elapsedAt o tr N >? responseTimeThreshold o)%Z = false)
    by (apply gtb_false; lia).
  erewrite since_app
    by (rewrite tryPublish_trace, beforeSettle_trace, Hslow, Hcb, <- !app_assoc; reflexivity).
  rewrite tryPublish_health, Hslow.
  repeat split; try reflexivity; count_effects.
Qed.

Lemma recovery_after_retries_witness :
  enabled exampleOptions = true /\
  0 < retryAttempts exampleOptions /\
  snd (failsTwice 2%nat) = Resolved ok200 /\
  elapsedAt exampleOptions failsTwice 2 <= responseTimeThreshold exampleOptions /\
  status (health (checkHealth exampleOptions failsTwice freshWorld)) = healthy /\
  retryCount (health (checkHealth exampleOptions failsTwice freshWorld)) = Some 0.
Proof.
  split; [reflexivity |]. split; [reflexivity |]. split; [reflexivity |].
  split; [vm_compute; discriminate |].
  assert (Hfail : forall j, (j < Z.to_nat (retryAttempts exampleOptions))%nat ->
                            fails (snd (failsTwice j)) = true).
  { intros j Hj. change (Z.to_nat (retryAttempts exampleOptions)) with 2%nat in Hj.
    destruct j as [| [| j]]; [reflexivity | reflexivity | lia]. }
  destruct (recovery_after_retries exampleOptions failsTwice freshWorld ok200 1%nat
              eq_refl eq_refl Hfail eq_refl eq_refl
              ltac:(vm_compute; discriminate) eq_refl)
    as (Hst & Hretry & _).
  split; [exact Hst | exact Hretry].
Defined.

(** ** Classification of a 200 response *)

Lemma string_app_assoc (a b c : string) : ((a ++ b) ++ c = a ++ (b ++ c))%string.
Proof. induction a as [| ch a IH]; simpl; [reflexivity | now rewrite IH]. Qed.

Lemma slowMessage_has_elapsed rt threshold :
  contains (numToString rt) (slowMessage rt threshold).
Proof.
  exists "Response time (",
         ("ms) exceeded threshold (" ++ numToString threshold ++ "ms)")%string.
  reflexivity.
Qed.

Lemma slowMessage_has_threshold rt threshold :
  contains (numToString threshold) (slowMessage rt threshold).
Proof.
  exists ("Response time (" ++ numToString rt ++ "ms) exceeded threshold (")%string, "ms)".
  unfold slowMessage. rewrite !string_app_assoc. reflexivity.
Qed.

(** With no callback supplied, a 200 response that took 1200 ms against a
    threshold of 500 ms is published as [unhealthy] with no [error], and
    nothing else is done: no message exists anywhere. *)
Lemma slow_response_reports_message_fails :
  ~ slow_response_reports_message quietOptions slowOk freshWorld.
Proof.
  intros H.
  destruct (H ok200 eq_refl eq_refl eq_refl eq_refl) as (_ & msg & [Herr | Hcb] & _).
  - vm_compute in Herr. discriminate.
  - destruct Hcb as (cb & e & Hin & _). vm_compute in Hin.
    repeat (destruct Hin as [Hin | Hin]; [discriminate |]). exact Hin.
Qed.

(** C3, amended.  The attempt that gets a 200 response is the cycle's last
    one: the cycle publishes once and neither waits nor requests again,
    and the status it publishes has no [error], slow or not.  When the
    elapsed time is at most the threshold the status is [healthy] and
    [onUnhealthy] is not called.  When it is above, the status is
    [unhealthy]; the message "Response time (<elapsed>ms) exceeded
    threshold (<threshold>ms)" is not published: it is the message of the
    [Error] given to [onUnhealthy], which is the one thing done after the
    publication when that callback is supplied, and nothing is when it is
    not. *)
Theorem ok_response_outcome (o : HealthCheckOptions) (tr : Transport) (w : World)
    (n : nat) (r : AxiosResponse) :
  enabled o = true ->
  (forall j, (j < n)%nat -> fails (snd (tr j)) = true) ->
  Z.of_nat n <= retryAttempts o ->
  snd (tr n) = Resolved r ->
  res_status r = 200 ->
  count isGet (since w (checkHealth o tr w)) = (n + 1)%nat /\
  count isSleep (since w (checkHealth o tr w)) = n /\
  count isSetHealth (since w (checkHealth o tr w)) = 1%nat /\
  error (health (checkHealth o tr w)) = None /\
  (elapsedAt o tr n <= responseTimeThreshold o ->
     status (health (checkHealth o tr w)) = healthy /\
     count isOnUnhealthy (since w (checkHealth o tr w)) = 0%nat) /\
  (elapsedAt o tr n > responseTimeThreshold o ->
     status (health (checkHealth o tr w)) = unhealthy /\
     since w (checkHealth o tr w) =
       roundsTrace o n
       ++ [EGet (url o); ESetHealth (health (checkHealth o tr w))]
       ++ match onUnhealthy o with
          | Some cb =>
              [EOnUnhealthy cb
                 (newError ("Response time (" ++ numToString (elapsedAt o tr n)
                            ++ "ms) exceeded threshold ("
                            ++ numToString (responseTimeThreshold o) ++ "ms)"))]
          | None => []
          end /\
     contains (numToString (elapsedAt o tr n))
       ("Response time (" ++ numToString (elapsedAt o tr n)
        ++ "ms) exceeded threshold ("
        ++ numToString (responseTimeThreshold o) ++ "ms)") /\
     contains (numToString (responseTimeThreshold o))
       ("Response time (" ++ numToString (elapsedAt o tr n)
        ++ "ms) exceeded threshold ("
        ++ numToString (responseTimeThreshold o) ++ "ms)")).
Proof.
  intros Hen Hfail Hle Hres H200.
  rewrite (cycle_succeeds_at o tr w n r) by auto.
  erewrite since_app
    by (rewrite tryPublish_trace, beforeSettle_trace, <- !app_assoc; reflexivity).
  rewrite tryPublish_health.
  split; [| split; [| split; [| split; [| split]]]].
  - destruct (elapsedAt o tr n >? responseTimeThreshold o)%Z;
      [destruct (onUnhealthy o) | destruct (onHealthy o)]; count_effects.
  - destruct (elapsedAt o tr n >? responseTimeThreshold o)%Z;
      [destruct (onUnhealthy o) | destruct (onHealthy o)]; count_effects.
  - destruct (elapsedAt o tr n >? responseTimeThreshold o)%Z;
      [destruct (onUnhealthy o) | destruct (onHealthy o)]; count_effects.
  - reflexivity.
  - intros Hfast. rewrite gtb_false by lia.
    split; [reflexivity |]. destruct (onHealthy o); count_effects.
  - intros Hslow. rewrite gtb_true by lia.
    split; [reflexivity |]. split; [reflexivity |].
    split; [apply slowMessage_has_elapsed | apply slowMessage_has_threshold].
Qed.

Lemma ok_response_outcome_witness :
  enabled exampleOptions = true /\
  snd (slowOk 0%nat) = Resolved ok200 /\
  res_status ok200 = 200 /\
  elapsedAt exampleOptions slowOk 0 > responseTimeThreshold exampleOptions /\
  status (health (checkHealth exampleOptions slowOk freshWorld)) = unhealthy /\
  error (health (checkHealth exampleOptions slowOk freshWorld)) = None /\
  since freshWorld (checkHealth exampleOptions slowOk freshWorld) =
    [EGet healthUrl;
     ESetHealth (health (checkHealth exampleOptions slowOk freshWorld));
     EOnUnhealthy 2%nat
       (newError "Response time (1200ms) exceeded threshold (500ms)")].
Proof.
  split; [reflexivity |]. split; [reflexivity |]. split; [reflexivity |].
  split; [reflexivity |].
  destruct (ok_response_outcome exampleOptions slowOk freshWorld 0 ok200
              eq_refl (fun j (Hj : (j < 0)%nat) => match Nat.nlt_0_r j Hj with end)
              ltac:(vm_compute; discriminate) eq_refl eq_refl)
    as (_ & _ & _ & Herr & _ & Hslow).
  destruct (Hslow eq_refl) as (Hst & Htrace & _).
  split; [exact Hst |]. split; [exact Herr |]. exact Htrace.
Defined.

(** ** The clock of a cycle *)

Lemma roundsTime_sum o tr n : forall k,
  roundsTime o tr k n = sumLatency tr k n + Z.of_nat n * timerDelay (retryDelay o).
Proof.
  induction n as [| n IH]; intros k.
  - reflexivity.
  - cbn [roundsTime sumLatency]. rewrite IH. lia.
Qed.

(** C4. [startTime] is read once, before the first attempt.  When [n]
    attempts fail and the next one gets a 200 response, the recorded
    [responseTime] is the sum of the latencies of all [n + 1] attempts plus
    the [n] retry delays, and that sum is what is compared with the
    threshold. *)
Theorem response_time_spans_the_cycle (o : HealthCheckOptions) (tr : Transport) (w : World)
    (n : nat) (r : AxiosResponse) :
  enabled o = true ->
  (forall j, (j < n)%nat -> fails (snd (tr j)) = true) ->
  Z.of_nat n <= retryAttempts o ->
  snd (tr n) = Resolved r ->
  res_status r = 200 ->
  responseTime (health (checkHealth o tr w)) =
    Some (sumLatency tr 0 n + Z.of_nat n * timerDelay (retryDelay o) + fst (tr n)) /\
  status (health (checkHealth o tr w)) =
    (if (sumLatency tr 0 n + Z.of_nat n * timerDelay (retryDelay o) + fst (tr n)
         >? responseTimeThreshold o)%Z
     then unhealthy else healthy).
Proof.
  intros Hen Hfail Hle Hres H200.
  rewrite (cycle_succeeds_at o tr w n r) by auto.
  rewrite tryPublish_health. unfold elapsedAt. rewrite roundsTime_sum.
  split; reflexivity.
Qed.

Lemma response_time_spans_the_cycle_witness :
  enabled exampleOptions = true /\
  snd (failsTwice 2%nat) = Resolved ok200 /\
  fst (failsTwice 2%nat) = 50 /\
  responseTime (health (checkHealth exampleOptions failsTwice freshWorld)) = Some 270.
Proof.
  split; [reflexivity |]. split; [reflexivity |]. split; [reflexivity |].
  assert (Hfail : forall j, (j < 2)%nat -> fails (snd (failsTwice j)) = true).
  { intros j Hj. destruct j as [| [| j]]; [reflexivity | reflexivity | lia]. }
  exact (proj1 (response_time_spans_the_cycle exampleOptions failsTwice freshWorld 2 ok200
                  eq_refl Hfail ltac:(vm_compute; discriminate) eq_refl eq_refl)).
Defined.

(** ** Responses other than 200 *)

Lemma tryBlock_asRejection o startTime s w :
  tryBlock o startTime (asRejection s) w = tryBlock o startTime s w.
Proof.
  destruct s as [r | e]; simpl; [| reflexivity].
  destruct (res_status r =? 200)%Z eqn:H; simpl; [| reflexivity].
  rewrite H. reflexivity.
Qed.

Lemma attempt_rejecting o startTime tr m : forall currentRetry k w,
  Z.to_nat (retryAttempts o - currentRetry) = m ->
  attemptHealthCheck o startTime (rejecting tr) currentRetry k w =
  attemptHealthCheck o startTime tr currentRetry k w.
Proof.
  induction m as [| m IH]; intros currentRetry k w Hm;
    rewrite (attemptHealthCheck_body o startTime tr),
            (attemptHealthCheck_body o startTime (rejecting tr));
    unfold awaitGet; cbn [rejecting fst snd]; rewrite tryBlock_asRejection;
    destruct (tryBlock o startTime (snd (tr k))
                (advance (fst (tr k)) (emit (EGet (url o)) w))) as [w' | e w'];
    try reflexivity;
    destruct (currentRetry <? retryAttempts o)%Z eqn:Hlt; try reflexivity.
  - apply Z.ltb_lt in Hlt. lia.
  - apply IH. apply Z.ltb_lt in Hlt. lia.
Qed.

(** C5. A response whose status is not 200 leaves the [try] block as the
    thrown [Error] with message "HTTP <code>: <statusText>", and from there
    on the cycle is the one a rejected request gives: the same cycle as
    with the transport that rejects with that [Error], the same bound of
    [retryAttempts + 1] requests, and the same terminal publication, whose
    [error] is that message. *)
Theorem non_200_takes_the_failure_path (o : HealthCheckOptions) (tr : Transport) (w : World)
    (r : AxiosResponse) :
  enabled o = true ->
  0 <= retryAttempts o ->
  (forall k, fails (snd (tr k)) = true) ->
  snd (tr (Z.to_nat (retryAttempts o))) = Resolved r ->
  (forall startTime w0,
     tryBlock o startTime (Resolved r) w0 =
     Caught (newError ("HTTP " ++ numToString (res_status r) ++ ": " ++ res_statusText r)) w0) /\
  checkHealth o tr w = checkHealth o (rejecting tr) w /\
  count isGet (since w (checkHealth o tr w)) = (Z.to_nat (retryAttempts o) + 1)%nat /\
  status (health (checkHealth o tr w)) = unhealthy /\
  error (health (checkHealth o tr w)) =
    Some ("HTTP " ++ numToString (res_status r) ++ ": " ++ res_statusText r)%string /\
  retryCount (health (checkHealth o tr w)) = Some (retryAttempts o).
Proof.
  intros Hen Hpos Hfail Hres.
  split; [| split].
  - intros startTime w0.
    pose proof (Hfail (Z.to_nat (retryAttempts o))) as Hr. rewrite Hres in Hr.
    apply (tryBlock_fails o startTime (Resolved r) w0 Hr).
  - unfold checkHealth. destruct (negb (enabled o)); [reflexivity |].
    symmetry. eapply attempt_rejecting. reflexivity.
  - rewrite (cycle_exhausted o tr w Hen Hpos) by (intros; apply Hfail).
    rewrite catchPublish_health, Hres.
    erewrite since_app
      by (rewrite catchPublish_trace, beforeSettle_trace, <- !app_assoc; reflexivity).
    repeat split; try reflexivity.
    destruct (onUnhealthy o); count_effects.
Qed.

Lemma non_200_takes_the_failure_path_witness :
  enabled exampleOptions = true /\
  0 <= retryAttempts exampleOptions /\
  (forall k, fails (snd (always204 k)) = true) /\
  snd (always204 2%nat) = Resolved noContent204 /\
  error (health (checkHealth exampleOptions always204 freshWorld)) =
    Some "HTTP 204: No Content".
Proof.
  split; [reflexivity |]. split; [vm_compute; discriminate |].
  split; [intros k; reflexivity |]. split; [reflexivity |].
  destruct (non_200_takes_the_failure_path exampleOptions always204 freshWorld noContent204
              eq_refl ltac:(vm_compute; discriminate) (fun _ => eq_refl) eq_refl)
    as (_ & _ & _ & _ & Herr & _).
  exact Herr.
Defined.

(** ** What a cycle publishes *)

Lemma successUpdate_invariant o rt now r prev :
  invariant (responseTimeThreshold o)
    (successUpdate (if (rt >? responseTimeThreshold o)%Z then unhealthy else healthy)
       now rt r prev).
Proof.
  unfold invariant. simpl.
  destruct (rt >? responseTimeThreshold o)%Z eqn:Hslow; split; intros Hst;
    try discriminate.
  - right. exists rt. split; [reflexivity |].
    rewrite Z.gtb_ltb in Hslow. apply Z.ltb_lt in Hslow. lia.
  - split; [reflexivity |]. exists rt. split; [reflexivity |].
    rewrite Z.gtb_ltb in Hslow. apply Z.ltb_ge in Hslow. exact Hslow.
Qed.

Lemma failureUpdate_invariant threshold o now e currentRetry prev :
  invariant threshold (failureUpdate o now e currentRetry prev).
Proof.
  unfold invariant. simpl. split; intros Hst; [discriminate |].
  left. discriminate.
Qed.

Lemma publishedOnce_prefix w w1 w' h t :
  trace w1 = trace w ++ t ->
  count isSetHealth t = O ->
  publishedOnce w1 w' h ->
  publishedOnce w w' h.
Proof.
  intros Ht Hc (pre & post & Htr & Hpre & Hpost & Hh).
  exists (t ++ pre), post. repeat split; try assumption.
  - rewrite Htr, Ht, <- !app_assoc. reflexivity.
  - rewrite count_app, Hc, Hpre. reflexivity.
Qed.

Lemma tryPublish_publishedOnce o rt r w :
  publishedOnce w (tryPublish o rt r w) (health (tryPublish o rt r w)).
Proof.
  exists [].
  eexists. split; [rewrite tryPublish_trace; reflexivity |].
  repeat split.
  destruct (rt >? responseTimeThreshold o)%Z;
    [destruct (onUnhealthy o) | destruct (onHealthy o)]; reflexivity.
Qed.

Lemma catchPublish_publishedOnce o e currentRetry w :
  publishedOnce w (catchPublish o e currentRetry w)
    (health (catchPublish o e currentRetry w)).
Proof.
  exists [].
  eexists. split; [rewrite catchPublish_trace, catchPublish_health; reflexivity |].
  repeat split. destruct (onUnhealthy o); reflexivity.
Qed.

(** Whatever the transport does, [attemptHealthCheck] returns having
    published exactly once, a status that meets the invariant. *)
Lemma attempt_publishes_once o startTime tr m : forall currentRetry k w,
  Z.to_nat (retryAttempts o - currentRetry) = m ->
  publishedOnce w (attemptHealthCheck o startTime tr currentRetry k w)
    (health (attemptHealthCheck o startTime tr currentRetry k w)) /\
  invariant (responseTimeThreshold o)
    (health (attemptHealthCheck o startTime tr currentRetry k w)).
Proof.
  induction m as [| m IH]; intros currentRetry k w Hm;
    rewrite attemptHealthCheck_body;
    (destruct (snd (tr k)) as [r | e]; cbn [tryBlock];
     [destruct (res_status r =? 200)%Z |]);
    try (split;
         [ apply (publishedOnce_prefix w (awaitGet o tr k w) _ _ [EGet (url o)]);
           [reflexivity | reflexivity | apply tryPublish_publishedOnce]
         | rewrite tryPublish_health; apply successUpdate_invariant ]);
    destruct (currentRetry <? retryAttempts o)%Z eqn:Hlt;
    try (apply Z.ltb_lt in Hlt; lia);
    try (split;
         [ apply (publishedOnce_prefix w (awaitGet o tr k w) _ _ [EGet (url o)]);
           [reflexivity | reflexivity | apply catchPublish_publishedOnce]
         | rewrite catchPublish_health; apply failureUpdate_invariant ]);
    (apply Z.ltb_lt in Hlt;
     match goal with
     | |- context [attemptHealthCheck o startTime tr (currentRetry + 1) (S k) ?w1] =>
         destruct (IH (currentRetry + 1) (S k) w1 ltac:(lia)) as [Hp Hi];
         split; [| exact Hi];
         apply (publishedOnce_prefix w w1 _ _ [EGet (url o); ESleep (retryDelay o)]);
         [ simpl; rewrite <- app_assoc; reflexivity | reflexivity | exact Hp ]
     end).
Qed.

Lemma publishedOnce_only w w' h h' :
  publishedOnce w w' h -> In (ESetHealth h') (since w w') -> h' = h.
Proof.
  intros (pre & post & Htr & Hpre & Hpost & _) Hin.
  rewrite (since_app _ _ _ Htr) in Hin.
  assert (Hno : forall t, count isSetHealth t = O -> ~ In (ESetHealth h') t).
  { intros t Hc Ht. unfold count in Hc.
    assert (Hf : In (ESetHealth h') (filter isSetHealth t))
      by (apply filter_In; split; [exact Ht | reflexivity]).
    destruct (filter isSetHealth t); [exact Hf | discriminate]. }
  apply in_app_or in Hin. destruct Hin as [Hin | [Heq | Hin]].
  - elim (Hno pre Hpre Hin).
  - congruence.
  - elim (Hno post Hpost Hin).
Qed.

Lemma resetUpdate_invariant threshold prev : invariant threshold (resetUpdate prev).
Proof. split; discriminate. Qed.

(** ** Fields a publication does not write *)

Lemma attempt_keeps_component_fields o startTime tr m : forall currentRetry k w,
  Z.to_nat (retryAttempts o - currentRetry) = m ->
  expanded (health (attemptHealthCheck o startTime tr currentRetry k w)) =
    expanded (health w) /\
  showDevTools (health (attemptHealthCheck o startTime tr currentRetry k w)) =
    showDevTools (health w).
Proof.
  induction m as [| m IH]; intros currentRetry k w Hm;
    rewrite attemptHealthCheck_body;
    (destruct (snd (tr k)) as [r | e]; cbn [tryBlock];
     [destruct (res_status r =? 200)%Z |]);
    try (rewrite tryPublish_health; split; reflexivity);
    destruct (currentRetry <? retryAttempts o)%Z eqn:Hlt;
    try (apply Z.ltb_lt in Hlt; lia);
    try (rewrite catchPublish_health; split; reflexivity);
    (apply Z.ltb_lt in Hlt;
     match goal with
     | |- context [attemptHealthCheck o startTime tr (currentRetry + 1) (S k) ?w1] =>
         destruct (IH (currentRetry + 1) (S k) w1 ltac:(lia)) as [Hex Hdev];
         rewrite Hex, Hdev; split; reflexivity
     end).
Qed.

(** No publication writes the component's own two fields. *)
Lemma cycle_keeps_component_fields o tr w :
  expanded (health (checkHealth o tr w)) = expanded (health w) /\
  showDevTools (health (checkHealth o tr w)) = showDevTools (health w).
Proof.
  unfold checkHealth. destruct (negb (enabled o)); [split; reflexivity |].
  eapply attempt_keeps_component_fields. reflexivity.
Qed.

Lemma attempt_all_fail o startTime tr m :
  (forall j, fails (snd (tr j)) = true) ->
  forall currentRetry k w,
  Z.to_nat (retryAttempts o - currentRetry) = m ->
  status (health (attemptHealthCheck o startTime tr currentRetry k w)) = unhealthy /\
  responseTime (health (attemptHealthCheck o startTime tr currentRetry k w)) =
    responseTime (health w).
Proof.
  intros Hfail.
  induction m as [| m IH]; intros currentRetry k w Hm;
    rewrite attemptHealthCheck_body, tryBlock_fails by apply Hfail;
    destruct (currentRetry <? retryAttempts o)%Z eqn:Hlt;
    try (apply Z.ltb_lt in Hlt; lia);
    try (rewrite catchPublish_health; split; reflexivity).
  apply Z.ltb_lt in Hlt.
  destruct (IH (currentRetry + 1) (S k) (awaitDelay o (awaitGet o tr k w)) ltac:(lia))
    as [Hst Hrt].
  split; [exact Hst | exact Hrt].
Qed.

(** C10. A publication is a merge into the previous status.  The
    publication that ends a cycle whose every attempt failed sets the
    status to [unhealthy] and does not write [responseTime]: the value an
    earlier cycle recorded is still there afterwards, as are the
    component's [expanded] and [showDevTools]. *)
Theorem failed_cycle_keeps_responseTime (o : HealthCheckOptions) (tr : Transport)
    (w : World) :
  enabled o = true ->
  (forall k, fails (snd (tr k)) = true) ->
  status (health (checkHealth o tr w)) = unhealthy /\
  responseTime (health (checkHealth o tr w)) = responseTime (health w) /\
  expanded (health (checkHealth o tr w)) = expanded (health w) /\
  showDevTools (health (checkHealth o tr w)) = showDevTools (health w).
Proof.
  intros Hen Hfail.
  destruct (cycle_keeps_component_fields o tr w) as [Hex Hdev].
  unfold checkHealth in *. rewrite Hen in *. cbn [negb] in *.
  destruct (attempt_all_fail o (clock w) tr _ Hfail 0 O w eq_refl) as [Hst Hrt].
  repeat split; assumption.
Qed.

Lemma failed_cycle_keeps_responseTime_witness :
  enabled exampleOptions = true /\
  (forall k, fails (snd (alwaysFails k)) = true) /\
  responseTime (health (checkHealth exampleOptions quickOk freshWorld)) = Some 50 /\
  status (health (checkHealth exampleOptions alwaysFails
                    (checkHealth exampleOptions quickOk freshWorld))) = unhealthy /\
  responseTime (health (checkHealth exampleOptions alwaysFails
                          (checkHealth exampleOptions quickOk freshWorld))) = Some 50.
Proof.
  split; [reflexivity |]. split; [intros k; reflexivity |]. split; [reflexivity |].
  destruct (failed_cycle_keeps_responseTime exampleOptions alwaysFails
              (checkHealth exampleOptions quickOk freshWorld) eq_refl (fun _ => eq_refl))
    as (Hst & Hrt & _).
  split; [exact Hst | exact Hrt].
Defined.

(** ** The mounted monitor *)

(** *** The monitor runs [checkHealth] *)

(** A cycle alone in flight, its request for attempt [k] just issued, is
    taken by the events the transport dictates to the world that
    [attemptHealthCheck] computes. *)
Lemma attempt_is_a_run o startTime tr n : forall currentRetry k w m,
  Z.to_nat (retryAttempts o - currentRetry) = n ->
  cycles m = [mkCycle o startTime currentRetry AwaitingResponse] ->
  world m = emit (EGet (url o)) w ->
  exists evs,
    world (run m evs) = attemptHealthCheck o startTime tr currentRetry k w /\
    cycles (run m evs) = [].
Proof.
  induction n as [| n IH]; intros currentRetry k w m Hn Hc Hw;
    rewrite attemptHealthCheck_body;
    pose (m1 := step m (Elapse (fst (tr k))));
    assert (Hw1 : world m1 = awaitGet o tr k w)
      by (unfold m1; simpl; rewrite Hw; reflexivity);
    assert (Hc1 : cycles m1 = [mkCycle o startTime currentRetry AwaitingResponse])
      by (unfold m1; simpl; exact Hc);
    pose (m2 := step m1 (Settle 0 (snd (tr k))));
    assert (Hm2 : m2 = settle 0 (snd (tr k)) m1) by reflexivity;
    unfold settle in Hm2; rewrite Hc1 in Hm2; cbn [nth_error] in Hm2;
    rewrite Hw1 in Hm2;
    destruct (tryBlock o startTime (snd (tr k)) (awaitGet o tr k w)) as [w' | e w'];
    try (exists [Elapse (fst (tr k)); Settle 0 (snd (tr k))];
         change (run m [Elapse (fst (tr k)); Settle 0 (snd (tr k))]) with m2;
         rewrite Hm2; split; reflexivity);
    destruct (currentRetry <? retryAttempts o)%Z eqn:Hlt;
    try (apply Z.ltb_lt in Hlt; lia);
    try (exists [Elapse (fst (tr k)); Settle 0 (snd (tr k))];
         change (run m [Elapse (fst (tr k)); Settle 0 (snd (tr k))]) with m2;
         rewrite Hm2; split; reflexivity).
  apply Z.ltb_lt in Hlt. cbn [replaceNth] in Hm2.
  pose (m3 := step m2 (Elapse (timerDelay (retryDelay o)))).
  pose (m4 := step m3 (Wake 0)).
  assert (Hm4w : world m4 = emit (EGet (url o)) (awaitDelay o w')).
  { unfold m4, m3. rewrite Hm2.
    cbn [step withWorld wake cycles world nth_error advance clock emit health trace].
    rewrite Z.leb_refl. reflexivity. }
  assert (Hm4c : cycles m4 = [mkCycle o startTime (currentRetry + 1) AwaitingResponse]).
  { unfold m4, m3. rewrite Hm2.
    cbn [step withWorld wake cycles world nth_error advance clock emit health trace].
    rewrite Z.leb_refl. reflexivity. }
  destruct (IH (currentRetry + 1) (S k) (awaitDelay o w') m4 ltac:(lia) Hm4c Hm4w)
    as (evs & Hworld & Hcycles).
  exists (Elapse (fst (tr k)) :: Settle 0 (snd (tr k))
          :: Elapse (timerDelay (retryDelay o)) :: Wake 0 :: evs).
  change (run m (Elapse (fst (tr k)) :: Settle 0 (snd (tr k))
                 :: Elapse (timerDelay (retryDelay o)) :: Wake 0 :: evs))
    with (run m4 evs).
  split; assumption.
Qed.

(** On a monitor with nothing in flight, [runHealthCheck] followed by the
    events of one cycle leaves the world [checkHealth] computes. *)
Lemma checkHealth_is_a_run (m : Monitor) (tr : Transport) :
  cycles m = [] ->
  exists evs,
    world (run (runHealthCheck m) evs) = checkHealth (props m) tr (world m) /\
    cycles (run (runHealthCheck m) evs) = [].
Proof.
  intros Hc. unfold runHealthCheck, checkHealth.
  destruct (enabled (props m)); cbn [negb].
  - eapply attempt_is_a_run; [reflexivity | cbn [cycles]; rewrite Hc; reflexivity | reflexivity].
  - exists []. split; [reflexivity | exact Hc].
Qed.

(** *** The invariant along a run *)

Section MonitorInvariant.

Variable T : Z.

Lemma worldOk_emit e w :
  isSetHealth e = false -> worldOk T w -> worldOk T (emit e w).
Proof.
  intros He [Htr Hh]. split; [| exact Hh].
  intros h Hin. cbn [emit trace] in Hin. apply in_app_or in Hin.
  destruct Hin as [Hin | [Heq | []]]; [apply Htr; exact Hin |].
  subst e. discriminate.
Qed.

Lemma worldOk_advance ms w : worldOk T w -> worldOk T (advance ms w).
Proof. intros H. exact H. Qed.

Lemma worldOk_setHealth f w :
  invariant T (f (health w)) -> worldOk T w -> worldOk T (setHealth f w).
Proof.
  intros Hf [Htr _]. split; [| exact Hf].
  intros h Hin. cbn [setHealth trace] in Hin. apply in_app_or in Hin.
  destruct Hin as [Hin | [Heq | []]]; [apply Htr; exact Hin |].
  injection Heq as <-. exact Hf.
Qed.

Lemma worldOk_tryPublish o rt r w :
  responseTimeThreshold o = T -> worldOk T w -> worldOk T (tryPublish o rt r w).
Proof.
  intros Ho Hw. unfold tryPublish.
  assert (Hs : worldOk T
                 (setHealth
                    (successUpdate
                       (if (rt >? responseTimeThreshold o)%Z then unhealthy else healthy)
                       (clock w) rt r) w)).
  { apply worldOk_setHealth; [| exact Hw]. rewrite <- Ho. apply successUpdate_invariant. }
  destruct (rt >? responseTimeThreshold o)%Z;
    [destruct (onUnhealthy o) | destruct (onHealthy o)];
    try exact Hs; apply worldOk_emit; [reflexivity | exact Hs | reflexivity | exact Hs].
Qed.

Lemma worldOk_catchPublish o e currentRetry w :
  worldOk T w -> worldOk T (catchPublish o e currentRetry w).
Proof.
  intros Hw. unfold catchPublish.
  assert (Hs : worldOk T (setHealth (failureUpdate o (clock w) e currentRetry) w))
    by (apply worldOk_setHealth; [apply failureUpdate_invariant | exact Hw]).
  destruct (onUnhealthy o); [apply worldOk_emit; [reflexivity | exact Hs] | exact Hs].
Qed.

Lemma worldOk_tryBlock o startTime s w :
  responseTimeThreshold o = T -> worldOk T w ->
  match tryBlock o startTime s w with
  | Completed w' => worldOk T w'
  | Caught _ w' => worldOk T w'
  end.
Proof.
  intros Ho Hw. destruct s as [r | e]; cbn [tryBlock]; [| exact Hw].
  destruct (res_status r =? 200)%Z; [apply worldOk_tryPublish; assumption | exact Hw].
Qed.

Lemma Forall_removeNth {A : Type} (P : A -> Prop) (l : list A) : forall i,
  Forall P l -> Forall P (removeNth i l).
Proof.
  induction l as [| x l IH]; intros i H; [destruct i; exact H |].
  inversion H; subst. destruct i; cbn [removeNth]; [assumption |].
  constructor; [assumption | apply IH; assumption].
Qed.

Lemma Forall_replaceNth {A : Type} (P : A -> Prop) (y : A) (l : list A) : forall i,
  P y -> Forall P l -> Forall P (replaceNth i y l).
Proof.
  induction l as [| x l IH]; intros i Hy H; [destruct i; exact H |].
  inversion H; subst. destruct i; cbn [replaceNth]; constructor; try assumption.
  apply IH; assumption.
Qed.

Lemma monitorOk_runHealthCheck m : monitorOk T m -> monitorOk T (runHealthCheck m).
Proof.
  intros (Hp & Hc & Hw). unfold runHealthCheck.
  destruct (negb (enabled (props m))); [exact (conj Hp (conj Hc Hw)) |].
  split; [exact Hp |]. split.
  - cbn [cycles]. apply Forall_app. split; [exact Hc |].
    constructor; [exact Hp | constructor].
  - apply worldOk_emit; [reflexivity | exact Hw].
Qed.

Lemma monitorOk_mainEffect m : monitorOk T m -> monitorOk T (mainEffect m).
Proof.
  intros (Hp & Hc & Hw). unfold mainEffect.
  destruct (negb (enabled (props m))).
  - split; [exact Hp |]. split; [exact Hc |].
    apply worldOk_setHealth; [apply resetUpdate_invariant | exact Hw].
  - apply monitorOk_runHealthCheck. exact (conj Hp (conj Hc Hw)).
Qed.

Lemma monitorOk_urlEffect m : monitorOk T m -> monitorOk T (urlEffect m).
Proof.
  intros (Hp & Hc & Hw). unfold urlEffect.
  destruct (variant m); [exact (conj Hp (conj Hc Hw)) |].
  split; [exact Hp |]. split; [exact Hc |].
  apply worldOk_setHealth; [apply resetUpdate_invariant | exact Hw].
Qed.

Lemma monitorOk_render q m :
  responseTimeThreshold q = T -> monitorOk T m -> monitorOk T (render q m).
Proof.
  intros Hq (Hp & Hc & Hw). unfold render.
  set (m1 := if sameMainDeps (props m) q then m else mainCleanup m).
  assert (H1 : Forall (fun c => responseTimeThreshold (c_options c) = T) (cycles m1)
               /\ worldOk T (world m1))
    by (unfold m1; destruct (sameMainDeps (props m) q); split; assumption).
  destruct H1 as [Hc1 Hw1].
  set (m2 := mkMonitor (variant m1) q (liveInterval m1) (world m1) (cycles m1)).
  assert (H2 : monitorOk T m2) by exact (conj Hq (conj Hc1 Hw1)).
  assert (H3 : monitorOk T (if String.eqb (url (props m)) (url q) then m2 else urlEffect m2))
    by (destruct (String.eqb (url (props m)) (url q));
        [exact H2 | apply monitorOk_urlEffect; exact H2]).
  destruct (sameMainDeps (props m) q); [exact H3 | apply monitorOk_mainEffect; exact H3].
Qed.

Lemma monitorOk_settle i s m : monitorOk T m -> monitorOk T (settle i s m).
Proof.
  intros (Hp & Hc & Hw). unfold settle.
  destruct (nth_error (cycles m) i) as [[o startTime currentRetry ph] |] eqn:Hn;
    [| exact (conj Hp (conj Hc Hw))].
  assert (Ho : responseTimeThreshold o = T).
  { apply nth_error_In in Hn. rewrite Forall_forall in Hc. apply (Hc _ Hn). }
  destruct ph as [| t]; [| exact (conj Hp (conj Hc Hw))].
  pose proof (worldOk_tryBlock o startTime s (world m) Ho Hw) as Ht.
  destruct (tryBlock o startTime s (world m)) as [w' | e w'].
  - split; [exact Hp |]. split; [apply Forall_removeNth; exact Hc | exact Ht].
  - destruct (currentRetry <? retryAttempts o)%Z.
    + split; [exact Hp |]. split.
      * apply Forall_replaceNth; [exact Ho | exact Hc].
      * apply worldOk_emit; [reflexivity | exact Ht].
    + split; [exact Hp |]. split; [apply Forall_removeNth; exact Hc |].
      apply worldOk_catchPublish. exact Ht.
Qed.

Lemma monitorOk_wake i m : monitorOk T m -> monitorOk T (wake i m).
Proof.
  intros (Hp & Hc & Hw). unfold wake.
  destruct (nth_error (cycles m) i) as [[o startTime currentRetry ph] |] eqn:Hn;
    [| exact (conj Hp (conj Hc Hw))].
  assert (Ho : responseTimeThreshold o = T).
  { apply nth_error_In in Hn. rewrite Forall_forall in Hc. apply (Hc _ Hn). }
  destruct ph as [| t]; [exact (conj Hp (conj Hc Hw)) |].
  destruct (t <=? clock (world m))%Z; [| exact (conj Hp (conj Hc Hw))].
  split; [exact Hp |]. split.
  - apply Forall_replaceNth; [exact Ho | exact Hc].
  - apply worldOk_emit; [reflexivity | exact Hw].
Qed.

Lemma monitorOk_mount v o now :
  responseTimeThreshold o = T -> monitorOk T (mount v o now).
Proof.
  intros Ho. unfold mount. apply monitorOk_mainEffect, monitorOk_urlEffect.
  split; [exact Ho |]. split; [constructor |].
  split; [intros h [] |]. destruct v; split; discriminate.
Qed.

(** While the threshold is not reconfigured, every status the mounted
    monitor publishes, by a cycle or by a reset, and the status it holds
    after any sequence of events, meet the invariant. *)
Lemma monitorOk_run evs : forall m,
  keepsThreshold T evs -> monitorOk T m -> monitorOk T (run m evs).
Proof.
  induction evs as [| ev evs IH]; intros m Hk Hm; [exact Hm |].
  cbn [run fold_left]. apply IH.
  - intros q Hq. apply Hk. right. exact Hq.
  - destruct ev as [q | | ms | i s | i]; cbn [step].
    + apply monitorOk_render; [apply Hk; left; reflexivity | exact Hm].
    + destruct (liveInterval m); [apply monitorOk_runHealthCheck |]; exact Hm.
    + exact Hm.
    + apply monitorOk_settle. exact Hm.
    + apply monitorOk_wake. exact Hm.
Qed.

End MonitorInvariant.

(** C6. Every status that is published meets the invariant: [healthy]
    comes with no [error] and a [responseTime] at most the threshold,
    [unhealthy] with an [error] or a [responseTime] above the threshold.
    This holds of every publication of a cycle, whatever the transport and
    the previous status; a cycle that runs publishes exactly once, so the
    status it leaves meets it too; and it holds of every status the
    mounted monitor publishes or holds along any sequence of events that
    leaves the threshold as configured. *)
Theorem published_status_invariant (o : HealthCheckOptions) (tr : Transport) (w : World) :
  (forall h, In (ESetHealth h) (since w (checkHealth o tr w)) ->
             invariant (responseTimeThreshold o) h) /\
  (enabled o = true ->
     count isSetHealth (since w (checkHealth o tr w)) = 1%nat /\
     invariant (responseTimeThreshold o) (health (checkHealth o tr w))) /\
  (forall v now evs,
     keepsThreshold (responseTimeThreshold o) evs ->
     worldOk (responseTimeThreshold o) (world (run (mount v o now) evs))).
Proof.
  split; [| split].
  - unfold checkHealth. destruct (enabled o); simpl.
    + destruct (attempt_publishes_once o (clock w) tr _ 0 O w eq_refl) as [Hp Hi].
      intros h Hin. rewrite (publishedOnce_only _ _ _ _ Hp Hin). exact Hi.
    + intros h Hin. unfold since in Hin. rewrite skipn_all in Hin. destruct Hin.
  - intros Hen. unfold checkHealth. rewrite Hen. simpl.
    destruct (attempt_publishes_once o (clock w) tr _ 0 O w eq_refl) as [Hp Hi].
    split; [| exact Hi].
    destruct Hp as (pre & post & Htr & Hpre & Hpost & _).
    rewrite (since_app _ _ _ Htr).
    change (ESetHealth ?h :: post) with ([ESetHealth h] ++ post).
    rewrite !count_app, Hpre, Hpost. reflexivity.
  - intros v now evs Hk.
    apply (monitorOk_run (responseTimeThreshold o) evs (mount v o now) Hk).
    apply monitorOk_mount. reflexivity.
Qed.

(** *** A cycle in flight when the monitor is disabled *)

(** Resuming a suspended cycle reads the cycle's own closure and the
    world: neither the props of the latest render nor the live effect. *)
Lemma settle_ignores_the_effect (i : nat) (s : Settled) (m : Monitor)
    (q : HealthCheckOptions) (live : option Z) :
  world (settle i s (mkMonitor (variant m) q live (world m) (cycles m))) =
  world (settle i s m).
Proof.
  unfold settle. cbn [cycles world variant props liveInterval].
  destruct (nth_error (cycles m) i) as [[o startTime currentRetry [| t]] |];
    try reflexivity.
  destruct (tryBlock o startTime s (world m)) as [w' | e w']; [reflexivity |].
  destruct (currentRetry <? retryAttempts o)%Z; reflexivity.
Qed.

(** No render takes a cycle out of flight: the clean-up clears the
    interval and nothing more. *)
Lemma render_keeps_cycles_in_flight (q : HealthCheckOptions) (m : Monitor) :
  exists started, cycles (render q m) = cycles m ++ started.
Proof.
  unfold render, mainEffect, runHealthCheck, urlEffect, mainCleanup, withWorld.
  destruct (sameMainDeps (props m) q), (String.eqb (url (props m)) (url q));
    cbn [variant props liveInterval world cycles];
    destruct (variant m); cbn [variant props liveInterval world cycles];
    destruct (enabled q); cbn [variant props liveInterval world cycles negb];
    first [ exists []; rewrite app_nil_r; reflexivity
          | eexists; reflexivity ].
Qed.

(** C7, at the failing input.  The hook is disabled while its first
    request is pending: the effect is cleaned up and the status is the
    [loading] snapshot, but the cycle stays in flight, and when its
    response arrives 30 ms later it is published and [onHealthy] is
    called, although the monitor is disabled.  After a re-enable the same
    stale cycle publishes over the state of the new session. *)
Theorem disabled_cycle_still_publishes :
  liveInterval disabledMidCycle = None /\
  enabled (props disabledMidCycle) = false /\
  List.length (cycles disabledMidCycle) = 1%nat /\
  health (world disabledMidCycle) = initialHookHealth /\
  status (health (world (run disabledMidCycle [Elapse 30; Settle 0 (Resolved ok200)])))
    = healthy /\
  responseTime (health (world (run disabledMidCycle
                                 [Elapse 30; Settle 0 (Resolved ok200)]))) = Some 50 /\
  count isOnHealthy (trace (world (run disabledMidCycle
                                     [Elapse 30; Settle 0 (Resolved ok200)]))) = 1%nat /\
  status (health (world (run disabledMidCycle
                           [Render exampleOptions; Elapse 30;
                            Settle 0 (Resolved ok200)]))) = healthy /\
  List.length (cycles (run disabledMidCycle
                         [Render exampleOptions; Elapse 30;
                          Settle 0 (Resolved ok200)])) = 1%nat.
Proof. repeat split; reflexivity. Qed.

(** *** A change of [url] *)

(** After a healthy cycle the component still shows [responseTime = 50]
    and [retryCount = 0] once the [url] has changed. *)
Lemma url_change_clears_fails : ~ url_change_clears settledComponent movedOptions.
Proof.
  intros H. destruct H as (_ & _ & Hrt & _).
  - vm_compute. discriminate.
  - vm_compute in Hrt. discriminate.
Qed.

Lemma url_change_reruns_main_effect (p q : HealthCheckOptions) :
  url q <> url p -> String.eqb (url p) (url q) = false /\ sameMainDeps p q = false.
Proof.
  intros H.
  assert (Hu : String.eqb (url p) (url q) = false)
    by (apply String.eqb_neq; congruence).
  split; [exact Hu |]. unfold sameMainDeps, sameCheckHealth. rewrite Hu. reflexivity.
Qed.

(** C8, amended.  In the component, a render that changes [url] resets the
    status to [loading] and clears [lastChecked], [error], [rawError] and
    [requestDetails], whatever [enabled] was and is; [responseTime] and
    [retryCount] are not written and keep their values. *)
Theorem url_change_resets_component (m : Monitor) (q : HealthCheckOptions) :
  variant m = ComponentVariant ->
  url q <> url (props m) ->
  status (health (world (render q m))) = loading /\
  lastChecked (health (world (render q m))) = None /\
  error (health (world (render q m))) = None /\
  rawError (health (world (render q m))) = None /\
  requestDetails (health (world (render q m))) = None /\
  responseTime (health (world (render q m))) = responseTime (health (world m)) /\
  retryCount (health (world (render q m))) = retryCount (health (world m)).
Proof.
  intros Hv Hurl.
  destruct (url_change_reruns_main_effect (props m) q Hurl) as [Hu Hdeps].
  unfold render. rewrite Hdeps, Hu.
  unfold urlEffect, mainCleanup. cbn [variant props liveInterval world cycles].
  rewrite Hv. unfold mainEffect, runHealthCheck, withWorld.
  cbn [variant props liveInterval world cycles].
  destruct (enabled q); cbn [negb]; repeat split; reflexivity.
Qed.

Lemma url_change_resets_component_witness :
  variant settledComponent = ComponentVariant /\
  url movedOptions <> url (props settledComponent) /\
  status (health (world settledComponent)) = healthy /\
  status (health (world (render movedOptions settledComponent))) = loading /\
  responseTime (health (world (render movedOptions settledComponent))) = Some 50.
Proof.
  assert (Hurl : url movedOptions <> url (props settledComponent))
    by (vm_compute; discriminate).
  split; [reflexivity |]. split; [exact Hurl |]. split; [reflexivity |].
  destruct (url_change_resets_component settledComponent movedOptions eq_refl Hurl)
    as (Hst & _ & _ & _ & _ & Hrt & _).
  split; [exact Hst | exact Hrt].
Defined.

(** The hook has no effect on [url]: while enabled, a render that changes
    [url] starts a new cycle and leaves the status as it was. *)
Lemma url_change_keeps_hook_status (m : Monitor) (q : HealthCheckOptions) :
  variant m = HookVariant ->
  url q <> url (props m) ->
  enabled q = true ->
  health (world (render q m)) = health (world m).
Proof.
  intros Hv Hurl Hen.
  destruct (url_change_reruns_main_effect (props m) q Hurl) as [Hu Hdeps].
  unfold render. rewrite Hdeps, Hu.
  unfold urlEffect, mainCleanup. cbn [variant props liveInterval world cycles].
  rewrite Hv. unfold mainEffect, runHealthCheck.
  cbn [variant props liveInterval world cycles]. rewrite Hen. reflexivity.
Qed.

(** *** Configurations the specification calls invalid *)

(** An enabled hook with an empty URL, a zero interval, a negative retry
    count and a zero threshold arms its timer and probes. *)
Lemma invalid_config_stays_disabled_fails :
  ~ invalid_config_stays_disabled HookVariant badOptions 0.
Proof.
  intros H. destruct H as (Hlive & _).
  - left. reflexivity.
  - vm_compute in Hlive. discriminate.
Qed.

(** C9, amended.  No configuration is validated: on mount the [enabled]
    flag alone decides whether the monitor probes.  Enabled, it arms the
    interval timer with [interval] as given and issues the first request at
    once; disabled, it does neither.  This holds for every configuration,
    the ones the specification calls invalid included. *)
Theorem mount_probes_iff_enabled (v : Variant) (o : HealthCheckOptions) (now : Z) :
  liveInterval (mount v o now) = (if enabled o then Some (interval o) else None) /\
  cycles (mount v o now) =
    (if enabled o then [mkCycle o now 0 AwaitingResponse] else []) /\
  count isGet (trace (world (mount v o now))) = (if enabled o then 1%nat else 0%nat) /\
  props (mount v o now) = o.
Proof.
  unfold mount, mainEffect, runHealthCheck, urlEffect, withWorld.
  destruct v; cbn [variant props liveInterval world cycles];
    destruct (enabled o); cbn [negb]; repeat split; reflexivity.
Qed.

(** A negative [retryAttempts] is not refused either: the cycle runs and
    behaves as with no retry at all. *)
Lemma negative_retryAttempts_single_attempt o tr w :
  enabled o = true ->
  retryAttempts o < 0 ->
  fails (snd (tr O)) = true ->
  checkHealth o tr w = catchPublish o (caughtValue (snd (tr O))) 0 (awaitGet o tr 0 w).
Proof.
  intros Hen Hneg Hfail. unfold checkHealth. rewrite Hen. cbn [negb].
  rewrite attemptHealthCheck_body, tryBlock_fails by exact Hfail.
  replace (0 <? retryAttempts o)%Z with false by (symmetry; apply Z.ltb_ge; lia).
  reflexivity.
Qed.

(** ** Any transport: the shape of a cycle *)

(** Whatever the transport does, [attemptHealthCheck] is some number [n] of
    failed rounds, within the retry budget, followed by one last attempt
    that either gets a 200 response or fails with the budget used up. *)
Lemma attempt_shape o startTime tr m : forall currentRetry k w,
  Z.to_nat (retryAttempts o - currentRetry) = m ->
  exists n,
    (n <= m)%nat /\
    (forall j, (j < n)%nat -> fails (snd (tr (k + j)%nat)) = true) /\
    ((exists r,
        snd (tr (k + n)%nat) = Resolved r /\ res_status r = 200 /\
        attemptHealthCheck o startTime tr currentRetry k w =
        tryPublish o
          (clock (awaitGet o tr (k + n) (failedRounds o tr k n w)) - startTime) r
          (awaitGet o tr (k + n) (failedRounds o tr k n w)))
     \/
     (fails (snd (tr (k + n)%nat)) = true /\
      retryAttempts o <= currentRetry + Z.of_nat n /\
      attemptHealthCheck o startTime tr currentRetry k w =
      catchPublish o (caughtValue (snd (tr (k + n)%nat))) (currentRetry + Z.of_nat n)
        (awaitGet o tr (k + n) (failedRounds o tr k n w)))).
Proof.
  induction m as [| m IH]; intros currentRetry k w Hm.
  - exists O. split; [lia |]. split; [intros j Hj; lia |].
    rewrite Nat.add_0_r, Z.add_0_r. cbn [failedRounds].
    rewrite attemptHealthCheck_body.
    destruct (fails (snd (tr k))) eqn:Hf.
    + right. rewrite tryBlock_fails by exact Hf.
      replace (currentRetry <? retryAttempts o)%Z with false
        by (symmetry; apply Z.ltb_ge; lia).
      repeat split; [lia].
    + left. destruct (snd (tr k)) as [r | e]; [| discriminate].
      cbn [fails] in Hf. apply negb_false_iff, Z.eqb_eq in Hf.
      exists r. rewrite tryBlock_200 by exact Hf. repeat split. exact Hf.
  - rewrite attemptHealthCheck_body.
    destruct (fails (snd (tr k))) eqn:Hf.
    + rewrite tryBlock_fails by exact Hf.
      replace (currentRetry <? retryAttempts o)%Z with true
        by (symmetry; apply Z.ltb_lt; lia).
      destruct (IH (currentRetry + 1) (S k) (awaitDelay o (awaitGet o tr k w))
                  ltac:(lia)) as (n & Hn & Hfails & Hend).
      exists (S n). split; [lia |]. split.
      * intros j Hj. destruct j as [| j]; [rewrite Nat.add_0_r; exact Hf |].
        replace (k + S j)%nat with (S k + j)%nat by lia. apply Hfails. lia.
      * replace (k + S n)%nat with (S k + n)%nat by lia.
        replace (currentRetry + Z.of_nat (S n)) with (currentRetry + 1 + Z.of_nat n) by lia.
        cbn [failedRounds]. exact Hend.
    + exists O. split; [lia |]. split; [intros j Hj; lia |].
      rewrite Nat.add_0_r. cbn [failedRounds].
      left. destruct (snd (tr k)) as [r | e]; [| discriminate].
      cbn [fails] in Hf. apply negb_false_iff, Z.eqb_eq in Hf.
      exists r. rewrite tryBlock_200 by exact Hf. repeat split. exact Hf.
Qed.

(** The same for [checkHealth]: with [n] the number of failed rounds, the
    cycle ends in the 200 branch or in the [catch] publication, from the
    world in which attempt [n] settles. *)
Lemma cycle_shape o tr w :
  enabled o = true ->
  exists n,
    Z.of_nat n <= Z.max 0 (retryAttempts o) /\
    ((exists r, checkHealth o tr w = tryPublish o (elapsedAt o tr n) r (beforeSettle o tr n w))
     \/
     (retryAttempts o <= Z.of_nat n /\
      checkHealth o tr w =
      catchPublish o (caughtValue (snd (tr n))) (Z.of_nat n) (beforeSettle o tr n w))).
Proof.
  intros Hen. unfold checkHealth. rewrite Hen. cbn [negb].
  destruct (attempt_shape o (clock w) tr _ 0 O w eq_refl)
    as (n & Hn & _ & [(r & _ & _ & Heq) | (_ & Hle & Heq)]);
    exists n; (split; [lia |]); cbn [Nat.add] in Heq; fold (beforeSettle o tr n w) in Heq.
  - left. exists r. rewrite Heq, beforeSettle_clock. f_equal. lia.
  - right. split; [lia |]. exact Heq.
Qed.






(** ** What the terminal publication records *)

(** X3. When the retries are used up and the last rejection is a value
    other than an [Error] on which properties can be read (a string, a
    number, a plain object; not [null] or [undefined], for which the
    updater throws on [axiosError.config]), the published [error] is the
    fixed text "Unknown error occurred", [rawError] keeps the rejected
    value itself, and [onUnhealthy] is given a fresh [Error] with that
    text, not the value. *)
Theorem non_error_rejection_is_unknown (o : HealthCheckOptions) (tr : Transport)
    (w : World) (e : Thrown) (cb : CallbackId) :
  enabled o = true ->
  0 <= retryAttempts o ->
  (forall j, (j <= Z.to_nat (retryAttempts o))%nat -> fails (snd (tr j)) = true) ->
  snd (tr (Z.to_nat (retryAttempts o))) = Rejected e ->
  instanceofError e = false ->
  onUnhealthy o = Some cb ->
  status (health (checkHealth o tr w)) = unhealthy /\
  error (health (checkHealth o tr w)) = Some "Unknown error occurred" /\
  rawError (health (checkHealth o tr w)) = Some e /\
  last (since w (checkHealth o tr w)) (EGet "") =
    EOnUnhealthy cb (newError "Unknown error occurred").
Proof.
  intros Hen Hpos Hfail Hlast Hne Hcb.
  rewrite (cycle_exhausted o tr w Hen Hpos Hfail).
  erewrite since_app
    by (rewrite catchPublish_trace, beforeSettle_trace, Hcb, <- !app_assoc; reflexivity).
  rewrite catchPublish_health, Hlast. cbn [caughtValue].
  unfold failureUpdate, errorMessageOf. cbn [status error rawError]. rewrite Hne.
  repeat split. rewrite app_assoc. apply last_two.
Qed.

Lemma non_error_rejection_is_unknown_witness :
  enabled exampleOptions = true /\
  0 <= retryAttempts exampleOptions /\
  snd (throwsString 2%nat) = Rejected thrownString /\
  instanceofError thrownString = false /\
  error (health (checkHealth exampleOptions throwsString freshWorld))
    = Some "Unknown error occurred".
Proof.
  split; [reflexivity |]. split; [vm_compute; discriminate |].
  split; [reflexivity |]. split; [reflexivity |].
  destruct (non_error_rejection_is_unknown exampleOptions throwsString freshWorld
              thrownString 2%nat eq_refl ltac:(vm_compute; discriminate)
              (fun _ _ => eq_refl) eq_refl eq_refl eq_refl)
    as (_ & Herr & _).
  exact Herr.
Defined.

(** X4. When the retries are used up and the last attempt was a response
    with a status other than 200, the published [requestDetails] do not
    echo that response: the thrown [Error] carries neither [config] nor
    [response], so the request is reported as a GET of the [url] prop with
    no headers and the response is absent. *)
Theorem non_200_response_is_not_echoed (o : HealthCheckOptions) (tr : Transport)
    (w : World) (r : AxiosResponse) :
  enabled o = true ->
  0 <= retryAttempts o ->
  (forall j, (j <= Z.to_nat (retryAttempts o))%nat -> fails (snd (tr j)) = true) ->
  snd (tr (Z.to_nat (retryAttempts o))) = Resolved r ->
  requestDetails (health (checkHealth o tr w)) =
    Some {| request := {| rq_url := url o; rq_method := "GET"; rq_headers := Some [] |};
            response := None |}.
Proof.
  intros Hen Hpos Hfail Hlast.
  rewrite (cycle_exhausted o tr w Hen Hpos Hfail), catchPublish_health, Hlast.
  reflexivity.
Qed.

Lemma non_200_response_is_not_echoed_witness :
  enabled exampleOptions = true /\
  0 <= retryAttempts exampleOptions /\
  snd (always204 2%nat) = Resolved noContent204 /\
  requestDetails (health (checkHealth exampleOptions always204 freshWorld)) =
    Some {| request := {| rq_url := healthUrl; rq_method := "GET"; rq_headers := Some [] |};
            response := None |}.
Proof.
  split; [reflexivity |]. split; [vm_compute; discriminate |]. split; [reflexivity |].
  exact (non_200_response_is_not_echoed exampleOptions always204 freshWorld noContent204
           eq_refl ltac:(vm_compute; discriminate) (fun _ _ => eq_refl) eq_refl).
Defined.

(** X5. After a cycle that ran, the panel's "Retry attempts" line is shown
    only with an [error]: a status published by the 200 branch, healthy or
    slow, never shows it, and a status published by [catch] shows the
    number of waits of the cycle. *)
Theorem retry_line_only_after_failure (o : HealthCheckOptions) (tr : Transport)
    (w : World) :
  enabled o = true ->
  (error (health (checkHealth o tr w)) = None /\
   showsRetryLine (health (checkHealth o tr w)) = false)
  \/
  (error (health (checkHealth o tr w)) <> None /\
   status (health (checkHealth o tr w)) = unhealthy /\
   retryCount (health (checkHealth o tr w)) =
     Some (Z.of_nat (count isSleep (since w (checkHealth o tr w))))).
Proof.
  intros Hen.
  destruct (cycle_shape o tr w Hen) as (n & _ & [(r & Heq) | (_ & Heq)]); rewrite Heq.
  - left. rewrite tryPublish_health. split; reflexivity.
  - right. rewrite catchPublish_health. split; [discriminate |]. split; [reflexivity |].
    erewrite since_app
      by (rewrite catchPublish_trace, beforeSettle_trace, <- !app_assoc; reflexivity).
    cbn [failureUpdate retryCount]. f_equal. f_equal.
    destruct (onUnhealthy o); count_effects.
Qed.

Lemma retry_line_only_after_failure_witness :
  enabled exampleOptions = true /\
  showsRetryLine (health (checkHealth exampleOptions failsTwice freshWorld)) = false /\
  showsRetryLine (health (checkHealth exampleOptions alwaysFails freshWorld)) = true.
Proof.
  split; [reflexivity |].
  split.
  - destruct (retry_line_only_after_failure exampleOptions failsTwice freshWorld eq_refl)
      as [[_ H] | [H _]]; [exact H |].
    exfalso. apply H. reflexivity.
  - reflexivity.
Defined.

(** ** Renders, ticks and the interval timer *)

Lemma optCallbackEqb_refl a : optCallbackEqb a a = true.
Proof. destruct a as [n |]; [apply Nat.eqb_refl | reflexivity]. Qed.

Lemma optCallbackEqb_eq a b : optCallbackEqb a b = true -> a = b.
Proof.
  destruct a as [x |], b as [y |]; cbn [optCallbackEqb]; intros H;
    try discriminate; [| reflexivity].
  apply Nat.eqb_eq in H. congruence.
Qed.

(** The two dependency arrays together list every option: the effect is
    kept exactly when the props are the same. *)
Lemma sameMainDeps_iff p q : sameMainDeps p q = true <-> p = q.
Proof.
  split.
  - unfold sameMainDeps, sameCheckHealth. intros H.
    repeat (apply andb_true_iff in H; destruct H as [H ?]).
    destruct p, q; cbn [url interval onHealthy onUnhealthy enabled retryAttempts
                        retryDelay responseTimeThreshold] in *.
    repeat match goal with
           | H : String.eqb _ _ = true |- _ => apply String.eqb_eq in H
           | H : optCallbackEqb _ _ = true |- _ => apply optCallbackEqb_eq in H
           | H : Bool.eqb _ _ = true |- _ => apply Bool.eqb_prop in H
           | H : Z.eqb _ _ = true |- _ => apply Z.eqb_eq in H
           end.
    congruence.
  - intros <-. unfold sameMainDeps, sameCheckHealth.
    rewrite String.eqb_refl, !optCallbackEqb_refl, !Bool.eqb_reflx, !Z.eqb_refl.
    reflexivity.
Qed.

Lemma render_timerFollowsProps q m : timerFollowsProps m -> timerFollowsProps (render q m).
Proof.
  unfold timerFollowsProps, render. intros Hm.
  destruct (sameMainDeps (props m) q) eqn:Hd.
  - apply sameMainDeps_iff in Hd. subst q. rewrite String.eqb_refl. exact Hm.
  - unfold mainEffect, runHealthCheck, urlEffect, mainCleanup, withWorld.
    destruct (String.eqb (url (props m)) (url q));
      cbn [variant props liveInterval world cycles];
      destruct (variant m); cbn [variant props liveInterval world cycles];
      destruct (enabled q) eqn:He;
      cbn [negb variant props liveInterval world cycles]; rewrite He; reflexivity.
Qed.

Lemma step_timerFollowsProps m ev : timerFollowsProps m -> timerFollowsProps (step m ev).
Proof.
  intros Hm. destruct ev as [q | | ms | i s | i]; cbn [step].
  - apply render_timerFollowsProps. exact Hm.
  - destruct (liveInterval m); [| exact Hm].
    unfold runHealthCheck. destruct (negb (enabled (props m))); exact Hm.
  - exact Hm.
  - unfold settle.
    destruct (nth_error (cycles m) i) as [[o startTime currentRetry [| t]] |];
      try exact Hm.
    destruct (tryBlock o startTime s (world m)) as [w' | e w']; [exact Hm |].
    destruct (currentRetry <? retryAttempts o)%Z; exact Hm.
  - unfold wake.
    destruct (nth_error (cycles m) i) as [[o startTime currentRetry [| t]] |];
      try exact Hm.
    destruct (t <=? clock (world m))%Z; exact Hm.
Qed.

Lemma mount_timerFollowsProps v o now : timerFollowsProps (mount v o now).
Proof.
  unfold timerFollowsProps, mount, mainEffect, runHealthCheck, urlEffect, withWorld.
  destruct v; cbn [variant props liveInterval world cycles];
    destruct (enabled o) eqn:He;
    cbn [negb variant props liveInterval world cycles]; rewrite He; reflexivity.
Qed.

Lemma run_timerFollowsProps evs : forall m,
  timerFollowsProps m -> timerFollowsProps (run m evs).
Proof.
  induction evs as [| ev evs IH]; intros m Hm; [exact Hm |].
  cbn [run fold_left]. apply IH, step_timerFollowsProps, Hm.
Qed.

(** X6. At every moment of the life of a mounted monitor the interval
    timer is armed exactly when the latest props say [enabled], and its
    period is the [interval] of the latest props: a new [interval] takes
    effect with the render that brings it, and a disabled monitor has no
    timer. *)
Theorem timer_follows_props (v : Variant) (o : HealthCheckOptions) (now : Z)
    (evs : list Event) :
  liveInterval (run (mount v o now) evs) =
    if enabled (props (run (mount v o now) evs))
    then Some (interval (props (run (mount v o now) evs)))
    else None.
Proof. apply run_timerFollowsProps, mount_timerFollowsProps. Qed.

(** X7. A render whose props are those of the previous render, callbacks
    included, changes nothing: no effect is cleaned up or run, no request
    is issued, nothing is published. *)
Theorem render_same_props_is_noop (m : Monitor) : render (props m) m = m.
Proof.
  unfold render.
  rewrite (proj2 (sameMainDeps_iff (props m) (props m)) eq_refl), String.eqb_refl.
  destruct m; reflexivity.
Qed.

(** X8. A render that changes any option while [enabled] is set, be it
    only the identity of a callback, re-runs the effect: the timer is
    re-armed with the new period and a new cycle starts at once with a
    request to the new [url], while every cycle already in flight stays in
    flight. *)
Theorem changed_props_restart_the_probe (m : Monitor) (q : HealthCheckOptions) :
  q <> props m ->
  enabled q = true ->
  liveInterval (render q m) = Some (interval q) /\
  cycles (render q m) = cycles m ++ [mkCycle q (clock (world m)) 0 AwaitingResponse] /\
  last (trace (world (render q m))) (ESleep 0) = EGet (url q) /\
  count isGet (since (world m) (world (render q m))) = 1%nat.
Proof.
  intros Hq Hen.
  assert (Hd : sameMainDeps (props m) q = false).
  { destruct (sameMainDeps (props m) q) eqn:Hd; [| reflexivity].
    apply sameMainDeps_iff in Hd. congruence. }
  unfold render. rewrite Hd.
  unfold mainEffect, runHealthCheck, urlEffect, mainCleanup, withWorld.
  destruct (String.eqb (url (props m)) (url q));
    cbn [variant props liveInterval world cycles];
    destruct (variant m); cbn [variant props liveInterval world cycles];
    rewrite Hen; cbn [negb liveInterval cycles world emit setHealth trace clock];
    (split; [reflexivity |]); (split; [reflexivity |]);
    (split; [first [apply last_last | rewrite app_assoc; apply last_last] |]);
    (erewrite since_app
       by (cbn [trace emit setHealth health clock]; rewrite <- ?app_assoc; reflexivity));
    reflexivity.
Qed.

Lemma changed_props_restart_the_probe_witness :
  recreatedCallbackOptions <> props (mount HookVariant exampleOptions 0) /\
  enabled recreatedCallbackOptions = true /\
  url recreatedCallbackOptions = url exampleOptions /\
  List.length (cycles (mount HookVariant exampleOptions 0)) = 1%nat /\
  List.length (cycles (render recreatedCallbackOptions (mount HookVariant exampleOptions 0)))
    = 2%nat.
Proof.
  assert (Hq : recreatedCallbackOptions <> props (mount HookVariant exampleOptions 0))
    by (vm_compute; discriminate).
  split; [exact Hq |]. split; [reflexivity |]. split; [reflexivity |].
  split; [reflexivity |].
  destruct (changed_props_restart_the_probe (mount HookVariant exampleOptions 0)
              recreatedCallbackOptions Hq eq_refl) as (_ & Hc & _).
  rewrite Hc. reflexivity.
Defined.

(** X9. No tick is dropped: on a monitor that is enabled, a tick of the
    interval timer starts a new cycle whatever is already in flight, so
    cycles overlap when a cycle outlasts the interval. *)
Theorem tick_starts_overlapping_cycle (v : Variant) (o : HealthCheckOptions) (now : Z)
    (evs : list Event) :
  enabled (props (run (mount v o now) evs)) = true ->
  cycles (step (run (mount v o now) evs) Tick) =
    cycles (run (mount v o now) evs)
    ++ [mkCycle (props (run (mount v o now) evs))
          (clock (world (run (mount v o now) evs))) 0 AwaitingResponse].
Proof.
  intros Hen.
  pose proof (run_timerFollowsProps evs _ (mount_timerFollowsProps v o now)) as Ht.
  unfold timerFollowsProps in Ht. rewrite Hen in Ht.
  cbn [step]. rewrite Ht. unfold runHealthCheck. rewrite Hen. reflexivity.
Qed.

Lemma tick_starts_overlapping_cycle_witness :
  enabled (props (run (mount HookVariant exampleOptions 0) [Elapse 10000])) = true /\
  List.length (cycles (run (mount HookVariant exampleOptions 0) [Elapse 10000])) = 1%nat /\
  List.length (cycles (step (run (mount HookVariant exampleOptions 0) [Elapse 10000]) Tick))
    = 2%nat.
Proof.
  split; [reflexivity |]. split; [reflexivity |].
  rewrite (tick_starts_overlapping_cycle HookVariant exampleOptions 0 [Elapse 10000] eq_refl).
  reflexivity.
Defined.

(** X10. A render that turns [enabled] off cancels the timer, starts
    nothing, leaves the cycles in flight where they are, and resets the
    status: [loading], with [lastChecked], [error], [rawError] and
    [requestDetails] cleared and every other field as it was.  The hook
    and the component do the same. *)
Theorem disabling_resets_and_stops (m : Monitor) (q : HealthCheckOptions) :
  enabled (props m) = true ->
  enabled q = false ->
  liveInterval (render q m) = None /\
  cycles (render q m) = cycles m /\
  count isGet (since (world m) (world (render q m))) = 0%nat /\
  health (world (render q m)) = resetUpdate (health (world m)).
Proof.
  intros Hp Hq.
  assert (Hd : sameMainDeps (props m) q = false).
  { destruct (sameMainDeps (props m) q) eqn:Hd; [| reflexivity].
    apply sameMainDeps_iff in Hd. subst q. congruence. }
  unfold render. rewrite Hd.
  unfold mainEffect, runHealthCheck, urlEffect, mainCleanup, withWorld.
  destruct (String.eqb (url (props m)) (url q));
    cbn [variant props liveInterval world cycles];
    destruct (variant m); cbn [variant props liveInterval world cycles];
    rewrite Hq; cbn [negb liveInterval cycles world emit setHealth trace clock health];
    (split; [reflexivity |]); (split; [reflexivity |]);
    (split; [| reflexivity]);
    (erewrite since_app
       by (cbn [trace emit setHealth health clock]; rewrite <- ?app_assoc; reflexivity));
    reflexivity.
Qed.

Lemma disabling_resets_and_stops_witness :
  enabled (props settledComponent) = true /\
  enabled disabledOptions = false /\
  status (health (world settledComponent)) = healthy /\
  status (health (world (render disabledOptions settledComponent))) = loading /\
  liveInterval (render disabledOptions settledComponent) = None.
Proof.
  split; [reflexivity |]. split; [reflexivity |]. split; [reflexivity |].
  destruct (disabling_resets_and_stops settledComponent disabledOptions eq_refl eq_refl)
    as (Hlive & _ & _ & Hh).
  split; [rewrite Hh; reflexivity | exact Hlive].
Defined.

(** ** The panel's own state *)

Lemma tryBlock_keeps_component_fields o startTime s w :
  match tryBlock o startTime s w with
  | Completed w' | Caught _ w' =>
      expanded (health w') = expanded (health w) /\
      showDevTools (health w') = showDevTools (health w)
  end.
Proof.
  destruct s as [r | e]; cbn [tryBlock]; [| split; reflexivity].
  destruct (res_status r =? 200)%Z; [| split; reflexivity].
  rewrite tryPublish_health. split; reflexivity.
Qed.

(** No event of the engine writes [expanded] or [showDevTools]. *)
Lemma step_keeps_component_fields m ev :
  expanded (health (world (step m ev))) = expanded (health (world m)) /\
  showDevTools (health (world (step m ev))) = showDevTools (health (world m)).
Proof.
  destruct ev as [q | | ms | i s | i]; cbn [step].
  - unfold render, mainEffect, runHealthCheck, urlEffect, mainCleanup, withWorld.
    destruct (sameMainDeps (props m) q), (String.eqb (url (props m)) (url q));
      cbn [variant props liveInterval world cycles];
      destruct (variant m); cbn [variant props liveInterval world cycles];
      destruct (enabled q); split; reflexivity.
  - destruct (liveInterval m); [| split; reflexivity].
    unfold runHealthCheck. destruct (negb (enabled (props m))); split; reflexivity.
  - split; reflexivity.
  - unfold settle.
    destruct (nth_error (cycles m) i) as [[o startTime currentRetry [| t]] |];
      try (split; reflexivity).
    pose proof (tryBlock_keeps_component_fields o startTime s (world m)) as Ht.
    destruct (tryBlock o startTime s (world m)) as [w' | e w']; [exact Ht |].
    destruct (currentRetry <? retryAttempts o)%Z; [exact Ht |].
    cbn [world]. rewrite catchPublish_health. exact Ht.
  - unfold wake.
    destruct (nth_error (cycles m) i) as [[o startTime currentRetry [| t]] |];
      try (split; reflexivity).
    destruct (t <=? clock (world m))%Z; split; reflexivity.
Qed.

Lemma xorb_negb_swap a c : xorb (negb a) c = xorb a (negb c).
Proof. destruct a, c; reflexivity. Qed.

Lemma odd_succ_negb n : Nat.odd (S n) = negb (Nat.odd n).
Proof. rewrite Nat.odd_succ, <- Nat.negb_odd. reflexivity. Qed.

Lemma uiRun_toggle_parity evs : forall m a b,
  expanded (health (world m)) = Some a ->
  showDevTools (health (world m)) = Some b ->
  expanded (health (world (uiRun m evs))) = Some (xorb a (Nat.odd (expandedToggles evs))) /\
  showDevTools (health (world (uiRun m evs)))
    = Some (xorb b (Nat.odd (devToolsToggles evs))).
Proof.
  unfold expandedToggles, devToolsToggles.
  induction evs as [| ev evs IH]; intros m a b Ha Hb.
  - cbn. rewrite !xorb_false_r. split; assumption.
  - cbn [uiRun fold_left]. destruct ev as [e | |]; cbn [uiStep filter isToggleExpanded
                                                       isToggleDevTools List.length].
    + destruct (step_keeps_component_fields m e) as [He Hd].
      apply IH; congruence.
    + rewrite odd_succ_negb, <- xorb_negb_swap.
      apply IH; cbn; [rewrite Ha | exact Hb]; reflexivity.
    + rewrite odd_succ_negb, <- xorb_negb_swap.
      apply IH; cbn; [exact Ha | rewrite Hb]; reflexivity.
Qed.

(** X11. In the component, whether the panel is open, and whether its
    developer tools are, depends on nothing but the number of calls of the
    corresponding click handler since the mount: open exactly after an odd
    number.  Renders, ticks, publications and resets, however interleaved
    with the clicks, never open or close either. *)
Theorem panel_state_is_click_parity (o : HealthCheckOptions) (now : Z)
    (evs : list UiEvent) :
  expanded (health (world (uiRun (mount ComponentVariant o now) evs)))
    = Some (Nat.odd (expandedToggles evs)) /\
  showDevTools (health (world (uiRun (mount ComponentVariant o now) evs)))
    = Some (Nat.odd (devToolsToggles evs)).
Proof.
  apply (uiRun_toggle_parity evs (mount ComponentVariant o now) false false);
    unfold mount, mainEffect, runHealthCheck, urlEffect, withWorld;
    cbn [variant props liveInterval world cycles];
    destruct (enabled o); reflexivity.
Qed.

(** ** Where the indicator and the panel go *)

Lemma isCorner_cases position :
  isCorner position = true ->
  position = "top-right" \/ position = "top-left" \/
  position = "bottom-right" \/ position = "bottom-left".
Proof.
  unfold isCorner. cbn [existsb]. intros H.
  repeat (apply orb_true_iff in H; destruct H as [H | H]);
    try discriminate; apply String.eqb_eq in H; auto.
Qed.

(** X12. For each of the four named corners the expanded panel is
    attached on the two sides on which the indicator is pinned: the
    offsets [getExpandedPosition] sets are on the same sides as those
    [getPositionStyles] sets, one vertical and one horizontal. *)
Theorem panel_opens_from_the_pinned_corner (position : string) :
  isCorner position = true ->
  sides (getExpandedPosition position) = sides (getPositionStyles position) /\
  (top (getPositionStyles position) = None <-> bottom (getPositionStyles position) <> None) /\
  (left (getPositionStyles position) = None <-> right (getPositionStyles position) <> None).
Proof.
  intros H.
  destruct (isCorner_cases position H) as [-> | [-> | [-> | ->]]];
    (split; [reflexivity |]); split; split; cbn; intros; congruence.
Qed.

Lemma panel_opens_from_the_pinned_corner_witness :
  isCorner "top-left" = true /\
  sides (getExpandedPosition "top-left") = (true, false, true, false) /\
  sides (getPositionStyles "top-left") = (true, false, true, false).
Proof.
  split; [reflexivity |]. split; [reflexivity |].
  rewrite <- (proj1 (panel_opens_from_the_pinned_corner "top-left" eq_refl)).
  reflexivity.
Defined.

(** X13. The container is [fixed] exactly when [getPositionStyles] gives it
    offsets: a position that is not one of the four corners, [top-center]
    or the empty string for instance, gets no offset at all and a
    [relative] container, while the expanded panel still gets exactly one
    vertical and one horizontal offset, whatever the string. *)
Theorem container_fixed_iff_pinned (position : string) :
  (containerPosition position = "fixed" <-> getPositionStyles position <> noOffsets) /\
  (isCorner position = false ->
     getPositionStyles position = noOffsets /\ containerPosition position = "relative") /\
  (top (getExpandedPosition position) = None <->
     bottom (getExpandedPosition position) <> None) /\
  (left (getExpandedPosition position) = None <->
     right (getExpandedPosition position) <> None).
Proof.
  split; [| split; [| split]].
  - destruct (isCorner position) eqn:H.
    + unfold containerPosition. rewrite H.
      destruct (isCorner_cases position H) as [-> | [-> | [-> | ->]]];
        split; intros; [discriminate | reflexivity | discriminate | reflexivity
                       | discriminate | reflexivity | discriminate | reflexivity].
    + unfold containerPosition, getPositionStyles. rewrite H.
      split; [discriminate | congruence].
  - intros H. unfold containerPosition, getPositionStyles. rewrite H. split; reflexivity.
  - unfold getExpandedPosition. cbn [top bottom].
    destruct (includes "top" position); split; intros; congruence.
  - unfold getExpandedPosition. cbn [left right].
    destruct (includes "left" position); split; intros; congruence.
Qed.

(** ** Closures of cycles in flight *)

(** X14. A cycle in flight keeps the closure it started with.  When its
    response arrives after a later render, whatever that render changed,
    the elapsed time is counted from the cycle's own start, compared with
    the threshold of the render that started it, and reported to the
    callbacks of that render, not to those of the latest props. *)
Theorem late_response_uses_old_closure (m : Monitor) (q : HealthCheckOptions) (i : nat)
    (o : HealthCheckOptions) (startTime currentRetry : Z) (r : AxiosResponse) :
  nth_error (cycles m) i = Some (mkCycle o startTime currentRetry AwaitingResponse) ->
  res_status r = 200 ->
  world (settle i (Resolved r) (render q m)) =
    tryPublish o (clock (world (render q m)) - startTime) r (world (render q m)).
Proof.
  intros Hi H200.
  destruct (render_keeps_cycles_in_flight q m) as (started & Hc).
  assert (Hn : nth_error (cycles (render q m)) i
               = Some (mkCycle o startTime currentRetry AwaitingResponse)).
  { rewrite Hc, nth_error_app1; [exact Hi |].
    apply nth_error_Some. rewrite Hi. discriminate. }
  unfold settle. rewrite Hn, tryBlock_200 by exact H200. reflexivity.
Qed.

Lemma late_response_uses_old_closure_witness :
  nth_error (cycles (mount HookVariant exampleOptions 0)) 0
    = Some (mkCycle exampleOptions 0 0 AwaitingResponse) /\
  res_status ok200 = 200 /\
  onHealthy recreatedCallbackOptions = Some 7%nat /\
  last (trace (world (settle 0 (Resolved ok200)
                        (render recreatedCallbackOptions
                           (mount HookVariant exampleOptions 0))))) (ESleep 0)
    = EOnHealthy 1%nat ok200.
Proof.
  split; [reflexivity |]. split; [reflexivity |]. split; [reflexivity |].
  rewrite (late_response_uses_old_closure (mount HookVariant exampleOptions 0)
             recreatedCallbackOptions 0 exampleOptions 0 0 ok200 eq_refl eq_refl).
  reflexivity.
Defined.

(** ** A monitor mounted disabled *)

Lemma step_atRest m ev :
  (forall q, ev <> Render q) -> atRest m -> atRest (step m ev).
Proof.
  intros Hev (Hl & Hc & Hg).
  destruct ev as [q | | ms | i s | i]; cbn [step].
  - elim (Hev q). reflexivity.
  - rewrite Hl. repeat split; assumption.
  - repeat split; assumption.
  - unfold settle. rewrite Hc. destruct i; repeat split; assumption.
  - unfold wake. rewrite Hc. destruct i; repeat split; assumption.
Qed.

Lemma run_atRest evs : forall m, noRender evs -> atRest m -> atRest (run m evs).
Proof.
  induction evs as [| ev evs IH]; intros m Hn Hm; [exact Hm |].
  cbn [run fold_left]. apply IH.
  - intros q Hq. apply (Hn q). right. exact Hq.
  - apply step_atRest; [| exact Hm].
    intros q ->. apply (Hn q). left. reflexivity.
Qed.

(** X15. A monitor mounted with [enabled = false] stays idle until a
    render says otherwise: whatever time passes and whatever ticks,
    responses or timers are delivered to it, it has no timer, nothing in
    flight, and it has issued no request. *)
Theorem disabled_mount_stays_idle (v : Variant) (o : HealthCheckOptions) (now : Z)
    (evs : list Event) :
  enabled o = false ->
  noRender evs ->
  liveInterval (run (mount v o now) evs) = None /\
  cycles (run (mount v o now) evs) = [] /\
  count isGet (trace (world (run (mount v o now) evs))) = 0%nat /\
  status (health (world (run (mount v o now) evs))) = loading.
Proof.
  intros Hen Hn.
  assert (Hm : atRest (mount v o now)).
  { unfold atRest, mount, mainEffect, runHealthCheck, urlEffect, withWorld.
    destruct v; cbn [variant props liveInterval world cycles];
      rewrite Hen; repeat split. }
  destruct (run_atRest evs _ Hn Hm) as (Hl & Hc & Hg).
  repeat split; try assumption.
  assert (Hs : forall evs m, noRender evs -> atRest m ->
                 health (world (run m evs)) = health (world m)).
  { clear. induction evs as [| ev evs IH]; intros m Hn Hm; [reflexivity |].
    change (run m (ev :: evs)) with (run (step m ev) evs).
    assert (Hev : forall q, ev <> Render q)
      by (intros q ->; apply (Hn q); left; reflexivity).
    rewrite IH.
    - destruct Hm as (Hl & Hc & _).
      destruct ev as [q | | ms | i s | i]; cbn [step].
      + elim (Hev q). reflexivity.
      + rewrite Hl. reflexivity.
      + reflexivity.
      + unfold settle. rewrite Hc. destruct i; reflexivity.
      + unfold wake. rewrite Hc. destruct i; reflexivity.
    - intros q Hq. apply (Hn q). right. exact Hq.
    - apply step_atRest; assumption. }
  rewrite (Hs evs _ Hn Hm).
  unfold mount, mainEffect, runHealthCheck, urlEffect, withWorld.
  destruct v; cbn [variant props liveInterval world cycles]; rewrite Hen; reflexivity.
Qed.

Lemma disabled_mount_stays_idle_witness :
  enabled disabledOptions = false /\
  noRender [Tick; Elapse 10000; Tick; Settle 0 (Resolved ok200); Wake 0] /\
  cycles (run (mount HookVariant disabledOptions 0)
            [Tick; Elapse 10000; Tick; Settle 0 (Resolved ok200); Wake 0]) = [].
Proof.
  assert (Hn : noRender [Tick; Elapse 10000; Tick; Settle 0 (Resolved ok200); Wake 0]).
  { intros q Hq. cbn in Hq.
    repeat (destruct Hq as [Hq | Hq]; [discriminate |]). exact Hq. }
  split; [reflexivity |]. split; [exact Hn |].
  exact (proj1 (proj2 (disabled_mount_stays_idle HookVariant disabledOptions 0 _
                         eq_refl Hn))).
Defined.
